(** * The plugin engine of remix-plugin: a shallow embedding

    Source: [src/projects/engine/src/engine/next-gen-engine.ts], class [Engine].
    The webview connector of [src/packages/plugin/vscode/src/lib/webview.ts]
    is modelled in the module [Webview] further down.

    The engine keeps three JavaScript objects used as maps ([plugins],
    [events], [listeners]) and talks to two kinds of collaborators that are
    not part of the engine: the plugin manager (the permission authority) and
    the plugins themselves.

    Modelling choices.
    - A [Record<string, T>] is a finite map [gmap string T] of its own
      properties; a field that was never assigned is [None] (the JavaScript
      [undefined]), and indexing [undefined] raises [TypeError].
    - A method is a function [World -> Res A * World]: an exception is a
      result, and the state reached when it was raised is kept, as in
      JavaScript.
    - [await] is sequential composition: the interleavings that a suspension
      point allows are outside this model.
    - Callbacks are first-order descriptions ([Callback]); the calls the
      engine makes to its collaborators are recorded in [trace]. A
      collaborator acts on its own state [X]: a hook, a request handler or a
      callback that calls back into the engine (through the capabilities it
      was given, or through an event of the manager) is not expressed.
    - The registry is a plain object, like the tables the code creates at
      line 177: the four guards on [this.plugins[name]] (lines 104, 170, 209
      and 264) also find the members of [Object.prototype] ([inherited]).
      The two event tables are read by listener names and composite event
      names, as own properties. *)

From stdpp Require Import gmap strings list fin_maps.
From Stdlib Require Import ZArith.

Local Open Scope string_scope.
Local Open Scope list_scope.
Local Open Scope nat_scope.

(** ** Values, profiles, errors *)

(** The payload of an event or a request is [any[]]: numbers, strings, and the
    [{name}] objects that the manager's own events carry. *)
Inductive value :=
| VNum (z : Z)
| VStr (s : string)
| VRec (name : string).

Abbreviation payload := (list value).

Record Profile := {
  profile_name : string;
  methods : list string
}.

(** The operation a [NotRegistered] failure comes from (three [throw]s with
    three messages in the source). *)
Inductive Op :=
| OpCall (caller : string)
| OpActivate
| OpDeactivate.

(** The capability a deactivated plugin tried to use. *)
Inductive Blocked :=
| BlockedCall (key target : string)
| BlockedOn (event target : string)
| BlockedOnce (event target : string)
| BlockedOff
| BlockedEmit (event : string).

Inductive Error :=
| TypeError
| ReferenceError
| AlreadyRegistered (name : string)
| NotRegistered (op : Op) (name : string)
| PermissionDenied (caller method target : string)
| NotActivatable (method target : string)
| MethodNotExposed (method target caller : string) (exposed : list string)
| InternalConsistency (listener event emitter : string)
| Deactivated (name : string) (what : Blocked)
| Failure (msg : string).

Inductive Res (A : Type) :=
| Ok (a : A)
| Throw (e : Error).

Arguments Ok {A} a.
Arguments Throw {A} e.

(** A callback stored in the event table.
    - [UserCb id]: a function supplied by a plugin;
    - [OnceCb listener emitter event cb]: the wrapper built by [listenOnce];
    - [RootActivate], [RootDeactivate]: the two arrows of [activateManager]. *)
Inductive Callback :=
| UserCb (id : nat)
| OnceCb (listener emitter event : string) (cb : Callback)
| RootActivate
| RootDeactivate.

(** The functions [on], [once], [off], [emit], [call] attached to a plugin
    object: absent before the first activation, closures over [name] while
    active, throwing stand-ins after a deactivation. *)
Inductive Bundle :=
| NoBundle
| Live (name : string)
| StandIn (name : string).

(** The object built by [createApp(name)]: one entry per fetched profile, in
    the order of the fold; the entry of a target holds closures over
    [(name, target.name)] and the profile itself. *)
Record App := {
  app_caller : string;
  app_targets : list Profile
}.

Record Plugin := {
  plugin_name : string;
  plugin_profile : Profile;
  bundle : Bundle;
  app : option App;
  createApp_slot : option string
}.

(** The calls the engine makes to its collaborators and hooks. *)
Inductive Call :=
| CAddProfile (p : Profile)
| CToggleActive (target : string)
| CActivate (plugin : string)
| CDeactivate (plugin : string)
| CAddRequest (target from method : string) (args : payload)
| CCallback (id : nat) (args : payload)
| COnRegistration (plugin : string)
| COnActivated (plugin : string)
| COnDeactivated (plugin : string).

(** ** The collaborators

    [PluginManager], [Plugin] and [listenEvent] are imported by the engine
    from files that are not part of [src/]; the engine's code is modelled over
    any implementation of them. [X] is the state of the collaborators. *)
Class External (X : Type) := {
  listenEvent : string -> string -> string;
  newPluginManager : Profile -> X -> X;
  addProfile : Profile -> X -> X;
  getProfile : X -> string -> option Profile;
  isActive : X -> string -> bool;
  canCall : X -> Profile -> Profile -> string -> bool;
  canActivate : X -> Profile -> Profile -> bool;
  toggleActive : string -> X -> X;
  plugin_activate : string -> X -> Res unit * X;
  plugin_deactivate : string -> X -> Res unit * X;
  plugin_addRequest : string -> string -> string -> payload -> X -> Res value * X;
  run_callback : nat -> payload -> X -> Res unit * X
}.

(** ** Names found through the prototype chain *)

(** The members of [Object.prototype]. On a plain object [o] and for such a
    key, [o[key]] is a built-in function (the prototype itself for
    [__proto__]), hence truthy, although [key] is no property of [o]. *)
Definition object_prototype : list string :=
  [ "constructor"; "__defineGetter__"; "__defineSetter__"; "hasOwnProperty";
    "__lookupGetter__"; "__lookupSetter__"; "isPrototypeOf";
    "propertyIsEnumerable"; "toString"; "valueOf"; "__proto__";
    "toLocaleString" ].

Definition inherited (key : string) : bool :=
  bool_decide (key ∈ object_prototype).

(** ** The engine state *)

Record World (X : Type) := {
  plugins : option (gmap string Plugin);
  events : option (gmap string (gmap string Callback));
  listeners : option (gmap string (list string));
  onRegistration : bool;
  onActivated : bool;
  onDeactivated : bool;
  global_name : option string;
  ext : X;
  trace : list Call
}.

Arguments plugins {X} _.
Arguments events {X} _.
Arguments listeners {X} _.
Arguments onRegistration {X} _.
Arguments onActivated {X} _.
Arguments onDeactivated {X} _.
Arguments global_name {X} _.
Arguments ext {X} _.
Arguments trace {X} _.

Section Engine.

Context {X : Type} `{External X}.

Definition M (A : Type) : Type := World X -> Res A * World X.

Definition ret {A} (a : A) : M A := fun w => (Ok a, w).

Definition throw {A} (e : Error) : M A := fun w => (Throw e, w).

Definition bind {A B} (m : M A) (k : A -> M B) : M B :=
  fun w =>
    match m w with
    | (Ok a, w') => k a w'
    | (Throw e, w') => (Throw e, w')
    end.

Notation "x <- m ;; k" := (bind m (fun x => k))
  (at level 100, m at next level, right associativity).
Notation "m ;;; k" := (bind m (fun _ => k))
  (at level 100, right associativity).

(** [undefined[k]] and [undefined.f(...)] raise [TypeError]. *)
Definition defined {A} (o : option A) : M A :=
  match o with
  | Some a => ret a
  | None => throw TypeError
  end.

(** A promise that nobody awaits: the call runs, its rejection is lost. The
    code suspends an asynchronous method at its first [await] and resumes it
    after the synchronous caller has returned; here it runs at once, so the
    order of its effects relative to that caller is not the code's. *)
Definition detached {A} (m : M A) : M unit :=
  fun w => (Ok tt, snd (m w)).

(** *** Field access *)

Definition this_plugins : M (gmap string Plugin) := fun w => defined (plugins w) w.
Definition this_events : M (gmap string (gmap string Callback)) :=
  fun w => defined (events w) w.
Definition this_listeners : M (gmap string (list string)) :=
  fun w => defined (listeners w) w.

Definition set_plugins (reg : gmap string Plugin) : M unit := fun w =>
  (Ok tt, {| plugins := Some reg; events := events w; listeners := listeners w;
             onRegistration := onRegistration w; onActivated := onActivated w;
             onDeactivated := onDeactivated w; global_name := global_name w;
             ext := ext w; trace := trace w |}).

Definition set_events (evs : gmap string (gmap string Callback)) : M unit := fun w =>
  (Ok tt, {| plugins := plugins w; events := Some evs; listeners := listeners w;
             onRegistration := onRegistration w; onActivated := onActivated w;
             onDeactivated := onDeactivated w; global_name := global_name w;
             ext := ext w; trace := trace w |}).

Definition set_listeners (ls : gmap string (list string)) : M unit := fun w =>
  (Ok tt, {| plugins := plugins w; events := events w; listeners := Some ls;
             onRegistration := onRegistration w; onActivated := onActivated w;
             onDeactivated := onDeactivated w; global_name := global_name w;
             ext := ext w; trace := trace w |}).

(** An effect on the collaborators, recorded in the trace. *)
Definition external {A} (c : Call) (f : X -> Res A * X) : M A := fun w =>
  let (r, x) := f (ext w) in
  (r, {| plugins := plugins w; events := events w; listeners := listeners w;
         onRegistration := onRegistration w; onActivated := onActivated w;
         onDeactivated := onDeactivated w; global_name := global_name w;
         ext := x; trace := trace w ++ [c] |}).

(** A query to the manager: it reads the collaborators' state. *)
Definition query {A} (f : X -> A) : M A := fun w => (Ok (f (ext w)), w).

(** An optional hook of the engine: [if (this.h) this.h(plugin)]. *)
Definition hook (present : World X -> bool) (c : Call) : M unit := fun w =>
  if present w then external c (fun x => (Ok tt, x)) w else (Ok tt, w).

(** The free identifier [name] of [addListener]: no parameter, local or
    import of the source file binds it, so it is looked up in the global
    scope, and an unresolvable reference raises [ReferenceError]. *)
Definition global_name_ref : M string := fun w =>
  match global_name w with
  | Some n => (Ok n, w)
  | None => (Throw ReferenceError, w)
  end.

(** *** Calls to the manager *)

Definition manager_addProfile (p : Profile) : M unit :=
  external (CAddProfile p) (fun x => (Ok tt, addProfile p x)).

Definition manager_getProfile (key : string) : M Profile :=
  o <- query (fun x => getProfile x key) ;;
  match o with
  | Some p => ret p
  | None => throw (Failure key)
  end.

Definition manager_isActive (key : string) : M bool :=
  query (fun x => isActive x key).

Definition manager_canCall (from to : Profile) (method : string) : M bool :=
  query (fun x => canCall x from to method).

Definition manager_canActivate (from to : Profile) : M bool :=
  query (fun x => canActivate x from to).

Definition manager_toggleActive (target : string) : M unit :=
  external (CToggleActive target) (fun x => (Ok tt, toggleActive target x)).

(** *** Plugin objects *)

Definition with_bundle (b : Bundle) (p : Plugin) : Plugin :=
  {| plugin_name := plugin_name p; plugin_profile := plugin_profile p;
     bundle := b; app := app p; createApp_slot := createApp_slot p |}.

Definition with_app (a : option App) (c : option string) (p : Plugin) : Plugin :=
  {| plugin_name := plugin_name p; plugin_profile := plugin_profile p;
     bundle := bundle p; app := a; createApp_slot := c |}.

(** [plugin] is a reference held across the method: an assignment to one of
    its properties changes the object stored in the registry. *)
Definition update_plugin (name : string) (f : Plugin -> Plugin) : M unit :=
  reg <- this_plugins ;;
  plugin <- defined (A := Plugin) (reg !! name) ;;
  set_plugins (<[name := f plugin]> reg).

(** ** The event registry *)

(** [addListener(listener, emitter, event, cb)], lines 53-65. The last test
    and the [push] use the identifier [name], not the parameter [listener]. *)
Definition addListener (listener emitter event : string) (cb : Callback) : M unit :=
  let eventName := listenEvent emitter event in
  evs <- this_events ;;
  table <- defined (A := gmap string Callback) (evs !! listener) ;;
  match table !! eventName with
  | None => set_events (<[listener := <[eventName := cb]> table]> evs)
  | Some _ => ret tt
  end ;;;
  ls <- this_listeners ;;
  match ls !! eventName with
  | None => set_listeners (<[eventName := []]> ls)
  | Some _ => ret tt
  end ;;;
  ls <- this_listeners ;;
  recorded <- defined (A := list string) (ls !! eventName) ;;
  name <- global_name_ref ;;
  if bool_decide (name ∈ recorded) then ret tt
  else set_listeners (<[eventName := recorded ++ [name]]> ls).

(** [removeListener(listener, emitter, event)], lines 73-79. *)
Definition removeListener (listener emitter event : string) : M unit :=
  let eventName := listenEvent emitter event in
  ls <- this_listeners ;;
  recorded <- defined (A := list string) (ls !! eventName) ;;
  set_listeners (<[eventName := filter (fun name => name ≠ listener) recorded]> ls) ;;;
  evs <- this_events ;;
  table <- defined (A := gmap string Callback) (evs !! listener) ;;
  set_events (<[listener := delete eventName table]> evs).

(** [listenOnce(listener, emitter, event, cb)], lines 88-93. *)
Definition listenOnce (listener emitter event : string) (cb : Callback) : M unit :=
  addListener listener emitter event (OnceCb listener emitter event cb).

(** Array iteration over the array as it was when the loop started. The
    callbacks of this model never change the iterated array in place:
    [removeListener] stores a new array, and the two root callbacks start an
    asynchronous method whose first [await] comes before its first write. *)
Fixpoint forEach {A} (l : list A) (f : A -> M unit) : M unit :=
  match l with
  | [] => ret tt
  | a :: l' => f a ;;; forEach l' f
  end.

(** ** Dispatch *)

(** [callMethod(caller, target, method, ...payload)], lines 103-140. The
    destructuring [const [to, from] = await Promise.all([getProfile(caller),
    getProfile(target)])] binds [to] to the first fetched profile and [from]
    to the second one. The guard of line 104 lets an inherited name through;
    for such a target [this.plugins[target]] is a built-in without a property
    [addRequest], and the call of line 139 raises [TypeError]. *)
Definition callMethod (caller target method : string) (args : payload) : M value :=
  reg <- this_plugins ;;
  match reg !! target with
  | Some _ => ret tt
  | None =>
      if inherited target then ret tt
      else throw (NotRegistered (OpCall caller) target)
  end ;;;
  to <- manager_getProfile caller ;;
  from <- manager_getProfile target ;;
  allowed <- manager_canCall from to method ;;
  if negb allowed then throw (PermissionDenied caller method target)
  else
    active <- manager_isActive target ;;
    (if negb active then
       activatable <- manager_canActivate from to ;;
       if activatable then manager_toggleActive target
       else throw (NotActivatable method target)
     else ret tt) ;;;
    if negb (bool_decide (method ∈ methods to)) then
      throw (MethodNotExposed method target caller (methods to))
    else
      reg' <- this_plugins ;;
      _ <- defined (A := Plugin) (reg' !! target) ;;
      external (CAddRequest target caller method args)
               (plugin_addRequest target caller method args).

(** The second half of the message of [MethodNotExposed], line 134. *)
Definition quoted (m : string) : string :=
  String (Ascii.ascii_of_nat 34) (m ++ String (Ascii.ascii_of_nat 34) EmptyString)%string.

Definition exposedMethodsMsg (exposed : list string) : string :=
  ("Here is the list of exposed methods: " ++ String.concat "," (map quoted exposed))%string.

(** ** Activation and deactivation *)

(** [createApp(name)], lines 147-162. The profiles are fetched for the keys
    of the registry; the keys come in the order of the finite map. *)
Fixpoint getProfiles (keys : list string) : M (list Profile) :=
  match keys with
  | [] => ret []
  | key :: keys' =>
      p <- manager_getProfile key ;;
      ps <- getProfiles keys' ;;
      ret (p :: ps)
  end.

Definition createApp (name : string) : M App :=
  reg <- this_plugins ;;
  profiles <- getProfiles (map fst (map_to_list reg)) ;;
  ret {| app_caller := name; app_targets := profiles |}.

(** Lines 176-196 of [activatePlugin]: what is set up for a registered
    plugin before its [activate] hook is called. *)
Definition install (name : string) : M unit :=
  evs <- this_events ;;
  set_events (<[name := ∅]> evs) ;;;
  update_plugin name (with_bundle (Live name)) ;;;
  snapshot <- createApp name ;;
  update_plugin name (with_app (Some snapshot) (Some name)).

(** The same lines when [name] is an inherited name: [plugin] is a built-in
    object, the capabilities and the snapshot are assigned to it and not to
    anything the engine holds, and [this.events[name] = {}] creates a table
    unless [name] is [__proto__], which that assignment treats as the
    prototype of the table object. *)
Definition install_on_builtin (name : string) : M unit :=
  evs <- this_events ;;
  (if bool_decide (name = "__proto__") then ret tt
   else set_events (<[name := ∅]> evs)) ;;;
  _ <- createApp name ;;
  ret tt.

(** [activatePlugin(name)], lines 169-201. The guard of line 170 lets an
    inherited name through; the built-in it finds has no [activate], and
    line 199 raises [TypeError]. *)
Definition activatePlugin (name : string) : M unit :=
  reg <- this_plugins ;;
  match reg !! name with
  | Some _ =>
      active <- manager_isActive name ;;
      if active then ret tt
      else
        install name ;;;
        external (CActivate name) (plugin_activate name) ;;;
        hook onActivated (COnActivated name)
  | None =>
      if inherited name then
        active <- manager_isActive name ;;
        if active then ret tt
        else install_on_builtin name ;;; throw TypeError
      else throw (NotRegistered OpActivate name)
  end.

(** The loop of lines 250-252 on one array:
    [arr.forEach((listener, i) => { if (listener === name) arr.splice(i, 1) })].
    [forEach] reads the length once, then visits the indices [0 .. len-1] of
    the array as it is at each step and skips an index that is no longer
    there; [splice(i, 1)] removes the element at [i] in place. [k] is the
    index, [n] the number of indices left to visit. *)
Fixpoint purge_from (name : string) (k n : nat) (arr : list string) : list string :=
  match n with
  | O => arr
  | S n' =>
      match arr !! k with
      | Some listener =>
          purge_from name (S k) n'
            (if bool_decide (listener = name) then delete k arr else arr)
      | None => purge_from name (S k) n' arr
      end
  end.

Definition purge (name : string) (arr : list string) : list string :=
  purge_from name 0 (length arr) arr.

(** Lines 219-253 of [deactivatePlugin]: what is taken from a registered
    plugin after its [deactivate] hook returned. *)
Definition withdraw (name : string) : M unit :=
  update_plugin name (with_bundle (StandIn name)) ;;;
  update_plugin name (with_app None None) ;;;
  evs <- this_events ;;
  set_events (delete name evs) ;;;
  ls <- this_listeners ;;
  set_listeners (purge name <$> ls).

(** [deactivatePlugin(name)], lines 208-257. The guard of line 209 lets an
    inherited name through; the built-in it finds has no [deactivate], and
    line 217 raises [TypeError]. *)
Definition deactivatePlugin (name : string) : M unit :=
  reg <- this_plugins ;;
  match reg !! name with
  | Some _ =>
      active <- manager_isActive name ;;
      if negb active then ret tt
      else
        external (CDeactivate name) (plugin_deactivate name) ;;;
        withdraw name ;;;
        hook onDeactivated (COnDeactivated name)
  | None =>
      if inherited name then
        active <- manager_isActive name ;;
        if negb active then ret tt else throw TypeError
      else throw (NotRegistered OpDeactivate name)
  end.

(** ** Broadcast *)

(** The parameter [({name})] of the two root callbacks: destructuring
    [undefined] raises [TypeError]; a number or a string has no property
    [name], and the resulting [undefined] is used as the property key. *)
Definition destructure_name (args : payload) : M string :=
  match args with
  | [] => throw TypeError
  | VRec name :: _ => ret name
  | _ :: _ => ret "undefined"
  end.

(** Calling a stored callback with the payload. *)
Fixpoint invoke (cb : Callback) (args : payload) : M unit :=
  match cb with
  | UserCb id => external (CCallback id args) (run_callback id args)
  | OnceCb listener emitter event cb' =>
      invoke cb' args ;;;
      removeListener listener emitter event
  | RootActivate =>
      name <- destructure_name args ;;
      detached (activatePlugin name)
  | RootDeactivate =>
      name <- destructure_name args ;;
      detached (deactivatePlugin name)
  end.

(** The body of the loop of [broadcast], lines 39-42, for one listener. *)
Definition deliver (emitter event : string) (args : payload) (listener : string) : M unit :=
  let eventName := listenEvent emitter event in
  evs <- this_events ;;
  table <- defined (A := gmap string Callback) (evs !! listener) ;;
  match table !! eventName with
  | None => throw (InternalConsistency listener event emitter)
  | Some cb => invoke cb args
  end.

(** [broadcast(emitter, event, ...payload)], lines 34-44. *)
Definition broadcast (emitter event : string) (args : payload) : M unit :=
  let eventName := listenEvent emitter event in
  ls <- this_listeners ;;
  match ls !! eventName with
  | None => ret tt
  | Some recorded => forEach recorded (deliver emitter event args)
  end.

(** ** Registration and construction *)

(** [register(plugin)], lines 263-270. The guard of line 264 also finds an
    inherited name. *)
Definition register (plugin : Plugin) : M unit :=
  reg <- this_plugins ;;
  match reg !! plugin_name plugin with
  | Some _ => throw (AlreadyRegistered (plugin_name plugin))
  | None =>
      if inherited (plugin_name plugin)
      then throw (AlreadyRegistered (plugin_name plugin))
      else
        set_plugins (<[plugin_name plugin := plugin]> reg) ;;;
        manager_addProfile (plugin_profile plugin) ;;;
        hook onRegistration (COnRegistration (plugin_name plugin))
  end.

(** [activateManager()], lines 22-26. *)
Definition activateManager : M unit :=
  activatePlugin "manager" ;;;
  addListener "__root__" "manager" "activated" RootActivate ;;;
  addListener "__root__" "manager" "deactivated" RootDeactivate.

(** Modelled from the spec: the class [PluginManager] is not part of the
    sources at hand; the permission authority is itself registered as a
    reserved manager plugin, so the object built by [new PluginManager] is a
    plugin handle of that name carrying the given profile. *)
Definition managerHandle (managerProfile : Profile) : Plugin :=
  {| plugin_name := "manager"; plugin_profile := managerProfile;
     bundle := NoBundle; app := None; createApp_slot := None |}.

(** The object on which the constructor runs: the three maps are declared
    (lines 7-9) and nothing assigns them. The optional hooks and the global
    scope are those of the surrounding program. *)
Definition blank (onReg onAct onDeact : bool) (g : option string) (x : X) : World X :=
  {| plugins := None; events := None; listeners := None;
     onRegistration := onReg; onActivated := onAct; onDeactivated := onDeact;
     global_name := g; ext := x; trace := [] |}.

(** [constructor(managerProfile)], lines 15-19. [activateManager] is
    asynchronous and its promise is dropped. *)
Definition new_PluginManager (managerProfile : Profile) : M unit := fun w =>
  (Ok tt, {| plugins := plugins w; events := events w; listeners := listeners w;
             onRegistration := onRegistration w; onActivated := onActivated w;
             onDeactivated := onDeactivated w; global_name := global_name w;
             ext := newPluginManager managerProfile (ext w); trace := trace w |}).

Definition constructor (managerProfile : Profile) : M unit :=
  new_PluginManager managerProfile ;;;
  register (managerHandle managerProfile) ;;;
  detached activateManager.

(** ** The capabilities seen by a plugin

    [plugin.on], [plugin.once], [plugin.off], [plugin.emit] and [plugin.call]
    as installed by [activatePlugin] (lines 178-192) and replaced by
    [deactivatePlugin] (lines 223-237). Calling a property that was never
    set raises [TypeError]. *)
Definition capability {A} (plugin : string) (what : Blocked) (live : string -> M A) : M A :=
  reg <- this_plugins ;;
  handle <- defined (A := Plugin) (reg !! plugin) ;;
  match bundle handle with
  | NoBundle => throw TypeError
  | Live name => live name
  | StandIn name => throw (Deactivated name what)
  end.

Definition plugin_on (plugin emitter event : string) (cb : Callback) : M unit :=
  capability plugin (BlockedOn event emitter)
    (fun name => addListener name emitter event cb).

Definition plugin_once (plugin emitter event : string) (cb : Callback) : M unit :=
  capability plugin (BlockedOnce event emitter)
    (fun name => listenOnce name emitter event cb).

Definition plugin_off (plugin emitter event : string) : M unit :=
  capability plugin BlockedOff (fun name => removeListener name emitter event).

Definition plugin_emit (plugin event : string) (args : payload) : M unit :=
  capability plugin (BlockedEmit event) (fun name => broadcast name event args).

Definition plugin_call (plugin target method : string) (args : payload) : M value :=
  capability plugin (BlockedCall method target)
    (fun name => callMethod name target method args).

(** ** Reading the tables *)

(** The listener set of [(emitter, event)], if one was created. *)
Definition listener_set (w : World X) (emitter event : string) : option (list string) :=
  match listeners w with
  | Some ls => ls !! listenEvent emitter event
  | None => None
  end.

(** The state [w] after the calls [cs] were added to its trace. *)
Definition logged (cs : list Call) (w : World X) : World X :=
  {| plugins := plugins w; events := events w; listeners := listeners w;
     onRegistration := onRegistration w; onActivated := onActivated w;
     onDeactivated := onDeactivated w; global_name := global_name w;
     ext := ext w; trace := trace w ++ cs |}.

(** The callback stored for [(listener, emitter, event)], if any. *)
Definition stored_callback (w : World X) (listener emitter event : string) : option Callback :=
  match events w with
  | Some evs =>
      match evs !! listener with
      | Some table => table !! listenEvent emitter event
      | None => None
      end
  | None => None
  end.

End Engine.

(** ** A concrete set of collaborators

    Modelled from the spec: the plugin manager, the plugins and [listenEvent]
    are not among the sources; section 6 of the specification gives their
    interface. [Authority] is a permission authority with a list of profiles,
    a list of active names and two policies; its plugins accept every hook
    and request. It is what the engine is run against on concrete inputs. *)
Record Authority := {
  known : list Profile;
  active_names : list string;
  call_policy : Profile -> Profile -> string -> bool;
  activate_policy : Profile -> Profile -> bool
}.

Definition authority_addProfile (p : Profile) (x : Authority) : Authority :=
  {| known := known x ++ [p]; active_names := active_names x;
     call_policy := call_policy x; activate_policy := activate_policy x |}.

Definition authority_getProfile (x : Authority) (key : string) : option Profile :=
  find (fun p => bool_decide (profile_name p = key)) (known x).

Definition authority_isActive (x : Authority) (key : string) : bool :=
  bool_decide (key ∈ active_names x).

Definition authority_toggleActive (key : string) (x : Authority) : Authority :=
  {| known := known x;
     active_names :=
       if authority_isActive x key
       then filter (fun n => n ≠ key) (active_names x)
       else active_names x ++ [key];
     call_policy := call_policy x; activate_policy := activate_policy x |}.

#[export] Instance authority_external : External Authority := {|
  listenEvent emitter event := ("[" ++ emitter ++ "] " ++ event)%string;
  newPluginManager p x := authority_addProfile p x;
  addProfile := authority_addProfile;
  getProfile := authority_getProfile;
  isActive := authority_isActive;
  canCall x := call_policy x;
  canActivate x := activate_policy x;
  toggleActive := authority_toggleActive;
  plugin_activate _ x := (Ok tt, x);
  plugin_deactivate _ x := (Ok tt, x);
  plugin_addRequest _ _ method _ x := (Ok (VStr method), x);
  run_callback _ _ x := (Ok tt, x)
|}.

Definition profile_of (name : string) (exposed : list string) : Profile :=
  {| profile_name := name; methods := exposed |}.

(** A plugin object as [register] receives it. *)
Definition handle (name : string) (exposed : list string) : Plugin :=
  {| plugin_name := name;
     plugin_profile := profile_of name exposed;
     bundle := NoBundle; app := None; createApp_slot := None |}.

(** An engine whose three maps exist, as every method but the constructor
    expects. *)
Definition engine (reg : gmap string Plugin)
    (evs : gmap string (gmap string Callback)) (ls : gmap string (list string))
    (g : option string) (x : Authority) : World Authority :=
  {| plugins := Some reg; events := Some evs; listeners := Some ls;
     onRegistration := true; onActivated := true; onDeactivated := true;
     global_name := g; ext := x; trace := [] |}.

Definition permissive (profiles : list Profile) (active : list string) : Authority :=
  {| known := profiles; active_names := active;
     call_policy := λ _ _ _, true; activate_policy := λ _ _, true |}.

(** *** Concrete engines *)

(** Plugins A (exposing m) and B (exposing nothing), both active, every call
    and activation permitted. *)
Definition exposure_world : World Authority :=
  engine {[ "A" := handle "A" ["m"]; "B" := handle "B" [] ]} ∅ ∅ (Some "")
    (permissive [profile_of "A" ["m"]; profile_of "B" []] ["A"; "B"]).

(** Plugins A and B, both exposing m and both active; only B may call. *)
Definition permission_world : World Authority :=
  engine {[ "A" := handle "A" ["m"]; "B" := handle "B" ["m"] ]} ∅ ∅ (Some "")
    {| known := [profile_of "A" ["m"]; profile_of "B" ["m"]];
       active_names := ["A"; "B"];
       call_policy := λ from _ _, bool_decide (profile_name from = "B");
       activate_policy := λ _ _, true |}.

(** Plugins A and B, both exposing m and both inactive; only A may activate
    another plugin. *)
Definition activation_world : World Authority :=
  engine {[ "A" := handle "A" ["m"]; "B" := handle "B" ["m"] ]} ∅ ∅ (Some "")
    {| known := [profile_of "A" ["m"]; profile_of "B" ["m"]];
       active_names := [];
       call_policy := λ _ _ _, true;
       activate_policy := λ from _, bool_decide (profile_name from = "A") |}.

(** An active plugin L with an empty callback table, nobody listening yet;
    [g] is what the global scope binds [name] to. *)
Definition listening_world (g : option string) : World Authority :=
  engine {[ "L" := handle "L" [] ]} {[ "L" := ∅ ]} ∅ g
    (permissive [profile_of "L" []] ["L"]).

(** A plugin P with a callback for event ev of E, the listener set of that
    event holding [names]; [active] is the list of names the manager reports
    active. *)
Definition recorded_world (active names : list string) : World Authority :=
  engine {[ "P" := handle "P" [] ]} {[ "P" := {[ "[E] ev" := UserCb 0 ]} ]}
    {[ "[E] ev" := names ]} (Some "")
    (permissive [profile_of "P" []] active).

(** A listener set naming L, and no callback table for L. *)
Definition orphan_world : World Authority :=
  engine {[ "L" := handle "L" [] ]} ∅ {[ "[E] ev" := ["L"] ]} (Some "")
    (permissive [profile_of "L" []] []).

(** A registry holding A (exposing m), active, and B, inactive. *)
Definition two_plugins : gmap string Plugin :=
  {[ "A" := handle "A" ["m"]; "B" := handle "B" [] ]}.

Definition registry_world : World Authority :=
  engine two_plugins ∅ ∅ (Some "")
    (permissive [profile_of "A" ["m"]; profile_of "B" []] ["A"]).

(** ** Observations used in the statements *)

Section Observations.

Context {X : Type}.

(** The callback table of a plugin and the registry entry of a name, read
    through the fields that may be missing. *)
Definition callback_table (w : World X) (key : string) : option (gmap string Callback) :=
  match events w with
  | Some evs => evs !! key
  | None => None
  end.

Definition registered (w : World X) (key : string) : option Plugin :=
  match plugins w with
  | Some reg => reg !! key
  | None => None
  end.

(** No listener set holds a name twice. *)
Definition duplicate_free (w : World X) : Prop :=
  ∀ ls k arr, listeners w = Some ls → ls !! k = Some arr → NoDup arr.

(** The plugin object after its activation: live capabilities, the app
    snapshot and its builder. *)
Definition wired (name : string) (profiles : list Profile) (p : Plugin) : Plugin :=
  {| plugin_name := plugin_name p; plugin_profile := plugin_profile p;
     bundle := Live name;
     app := Some {| app_caller := name; app_targets := profiles |};
     createApp_slot := Some name |}.

End Observations.

(** The registry of [registry_world] with a manager that reports the name
    toString active. *)
Definition eager_world : World Authority :=
  engine two_plugins ∅ ∅ (Some "")
    (permissive [profile_of "A" ["m"]; profile_of "B" []] ["toString"]).

(** A registered, inactive manager plugin on an engine without callback
    tables. *)
Definition bootstrap_world : World Authority :=
  engine {[ "manager" := handle "manager" [] ]} ∅ ∅ (Some "")
    (permissive [profile_of "manager" []] []).

(** A plugin L with an empty callback table, and a listener set that holds
    another name. *)
Definition bystander_world : World Authority :=
  engine {[ "L" := handle "L" [] ]} {[ "L" := ∅ ]} {[ "[E] ev" := ["Q"] ]} (Some "")
    (permissive [profile_of "L" []] ["L"]).

(** * The webview connector

    Source: [src/packages/plugin/vscode/src/lib/webview.ts], class
    [WebviewConnector]. The connector posts messages to a window (or to the
    VS Code API object) and hands the messages it receives to one callback.
    [isHandshake] and [checkOrigin] are imported from another package and are
    parameters here, as are the types of messages, of windows and of the
    [devMode] option. The calls to [postMessage] and to the callback are
    recorded in the connector. The handler installed by [on] is modelled for
    one registration, and its [await] as sequential composition. *)
Module Webview.

Section Connector.

Context {Msg Src Dev : Type}.
Variable isHandshake : Msg → bool.
Variable checkOrigin : string → Dev → bool.

(** A call [source.postMessage(message, origin)]; the VS Code API is called
    without an origin. *)
Record Post := {
  post_to : Src;
  post_message : Msg;
  post_origin : option string
}.

Record Connector := {
  source : Src;
  origin : option string;
  isVscode : bool;
  options : option Dev;
  posted : list Post;
  delivered : list Msg
}.

(** What the page binds the global [acquireVsCodeApi] to: nothing, a falsy
    value, or the function of VS Code, which returns the API object (a truthy
    value that cannot be called is left out). *)
Inductive Binding :=
| Unbound
| Falsy
| Acquire (api : Src).

(** [constructor(options)], lines 22-25; [parent] is [window.parent]. The
    field [origin] is declared and not assigned. *)
Definition new_WebviewConnector (acquireVsCodeApi : Binding) (parent : Src)
    (opts : option Dev) : Res Connector :=
  match acquireVsCodeApi with
  | Unbound => Throw ReferenceError
  | Falsy =>
      Ok {| source := parent; origin := None; isVscode := false;
            options := opts; posted := []; delivered := [] |}
  | Acquire api =>
      Ok {| source := api; origin := None; isVscode := true;
            options := opts; posted := []; delivered := [] |}
  end.

(** The truth value of [this.origin]: [undefined] and the empty string are
    falsy. *)
Definition truthy (o : option string) : bool :=
  match o with
  | Some s => negb (bool_decide (s = ""))
  | None => false
  end.

Definition postMessage (message : Msg) (o : option string) (c : Connector) : Connector :=
  {| source := source c; origin := origin c; isVscode := isVscode c;
     options := options c;
     posted := posted c ++ [{| post_to := source c; post_message := message;
                               post_origin := o |}];
     delivered := delivered c |}.

(** [send(message)], lines 29-36. *)
Definition send (message : Msg) (c : Connector) : Connector :=
  if isVscode c then postMessage message None c
  else if truthy (origin c) || isHandshake message then
    postMessage message
      (Some (if truthy (origin c) then default "" (origin c) else "*")) c
  else c.

Record MessageEvent := {
  event_source : option Src;
  event_data : option Msg;
  event_origin : string
}.

(** [this.origin = event.origin; this.source = event.source], lines 50-51. *)
Definition adopt (o : string) (src : Src) (c : Connector) : Connector :=
  {| source := src; origin := Some o; isVscode := isVscode c;
     options := options c; posted := posted c; delivered := delivered c |}.

(** [cb(event.data)], line 54. *)
Definition deliver (data : Msg) (c : Connector) : Connector :=
  {| source := source c; origin := origin c; isVscode := isVscode c;
     options := options c; posted := posted c;
     delivered := delivered c ++ [data] |}.

(** The listener installed by [on(cb)], lines 40-56, run on one event. A
    missing source or falsy data is [None]. *)
Definition receive (event : MessageEvent) (c : Connector) : Res unit * Connector :=
  match event_source event with
  | None => (Throw (Failure "No source"), c)
  | Some src =>
      match event_data event with
      | None => (Throw (Failure "No data"), c)
      | Some data =>
          if isVscode c then (Ok tt, deliver data c)
          else
            match options c with
            | None => (Throw TypeError, c)
            | Some devMode =>
                if negb (checkOrigin (event_origin event) devMode) then (Ok tt, c)
                else
                  (Ok tt,
                   deliver data
                     (if isHandshake data then adopt (event_origin event) src c
                      else c))
            end
      end
  end.

(** What happens to a connector: it receives an event or its client sends
    a message. *)
Inductive Action :=
| Receive (event : MessageEvent)
| Send (message : Msg).

Definition step (c : Connector) (a : Action) : Connector :=
  match a with
  | Receive event => snd (receive event c)
  | Send message => send message c
  end.

Definition run (actions : list Action) (c : Connector) : Connector :=
  foldl step c actions.

(** The data of an event that has a source, data and an origin accepted by
    [checkOrigin]. *)
Definition accepted (devMode : Dev) (a : Action) : option Msg :=
  match a with
  | Receive event =>
      match event_source event with
      | Some _ =>
          if checkOrigin (event_origin event) devMode then event_data event
          else None
      | None => None
      end
  | Send _ => None
  end.

(** The data of an event that has a source and data. *)
Definition readable (a : Action) : option Msg :=
  match a with
  | Receive event =>
      match event_source event with
      | Some _ => event_data event
      | None => None
      end
  | Send _ => None
  end.

Definition sent (a : Action) : option Msg :=
  match a with
  | Receive _ => None
  | Send message => Some message
  end.

End Connector.

End Webview.

(** *** A concrete page

    An instance of the parameters of the connector: messages are strings and
    the handshake is one of them, windows are numbers, [devMode] is a flag,
    and [checkOrigin] accepts one origin, or every origin in development
    mode. *)
Definition is_hello (m : string) : bool := bool_decide (m = "handshake").

Definition remix_origin (o : string) (devMode : bool) : bool :=
  devMode || bool_decide (o = "https://remix.ethereum.org").

(** The connector built in a frame whose parent is window 0, and the one
    built with the VS Code API object 7. *)
Definition frame : @Webview.Connector string nat bool :=
  {| Webview.source := 0; Webview.origin := None; Webview.isVscode := false;
     Webview.options := Some false; Webview.posted := [];
     Webview.delivered := [] |}.

Definition panel : @Webview.Connector string nat bool :=
  {| Webview.source := 7; Webview.origin := None; Webview.isVscode := true;
     Webview.options := Some false; Webview.posted := [];
     Webview.delivered := [] |}.

(** A handshake from window 1 at the accepted origin, the same from another
    origin, and a request from the accepted origin. *)
Definition hello_event : @Webview.MessageEvent string nat :=
  {| Webview.event_source := Some 1; Webview.event_data := Some "handshake";
     Webview.event_origin := "https://remix.ethereum.org" |}.

Definition foreign_event : @Webview.MessageEvent string nat :=
  {| Webview.event_source := Some 2; Webview.event_data := Some "handshake";
     Webview.event_origin := "https://example.org" |}.

Definition request_event : @Webview.MessageEvent string nat :=
  {| Webview.event_source := Some 1; Webview.event_data := Some "request";
     Webview.event_origin := "https://remix.ethereum.org" |}.

Definition session : list (@Webview.Action string nat) :=
  [Webview.Send "early"; Webview.Send "handshake"; Webview.Receive foreign_event;
   Webview.Receive request_event; Webview.Receive hello_event;
   Webview.Send "reply"].

(** * Properties *)

(** ** The purge loop of [deactivatePlugin] *)

(** No two neighbours of the array are both [name]. *)
Fixpoint apart (name : string) (l : list string) : Prop :=
  match l with
  | a :: l' =>
      match l' with
      | b :: _ => ¬ (a = name ∧ b = name)
      | [] => True
      end ∧ apart name l'
  | [] => True
  end.

Lemma NoDup_apart (name : string) (l : list string) : NoDup l → apart name l.
Proof.
  induction 1 as [|a l Hin _ IH]; simpl; [done|].
  split; [|done].
  destruct l as [|b l]; [done|].
  intros [-> ->]. apply Hin. left.
Qed.

(** Past the end of the array the loop visits nothing. *)
Lemma purge_from_ge (name : string) (n k : nat) (arr : list string) :
  length arr ≤ k → purge_from name k n arr = arr.
Proof.
  revert k. induction n as [|n IH]; intros k Hk; simpl; [done|].
  rewrite (lookup_ge_None_2 arr k) by done.
  apply IH. lia.
Qed.

(** The loop never touches what lies before its index. *)
Lemma purge_from_lookup_lt (name : string) (n k i : nat) (arr : list string) :
  i < k → purge_from name k n arr !! i = arr !! i.
Proof.
  revert k arr. induction n as [|n IH]; intros k arr Hi; simpl; [done|].
  destruct (arr !! k) as [listener|] eqn:Hk.
  - rewrite IH by lia. case_bool_decide; [|done].
    apply list_lookup_delete_lt. done.
  - apply IH. lia.
Qed.

(** From index [length pre], with at least [length suf] indices to visit, the
    loop removes every [name] of [suf] when no two of them are neighbours. *)
Lemma purge_from_apart (name : string) (n : nat) :
  ∀ (suf pre : list string),
    length suf ≤ n → apart name suf →
    purge_from name (length pre) n (pre ++ suf)
    = pre ++ filter (λ x, x ≠ name) suf.
Proof.
  induction n as [|n IH]; intros suf pre Hlen Hap.
  - destruct suf; simpl in *; [done|lia].
  - destruct suf as [|a suf]; simpl.
    + rewrite lookup_ge_None_2 by (rewrite length_app; simpl; lia).
      rewrite purge_from_ge by (rewrite length_app; simpl; lia). done.
    + rewrite list_lookup_middle by done.
      simpl in Hlen. destruct Hap as [Hhead Hap].
      case_bool_decide as Ha.
      * subst a. rewrite delete_middle.
        rewrite filter_cons_False by (intros Hne; by apply Hne).
        destruct suf as [|b suf].
        { rewrite purge_from_ge by (rewrite length_app; simpl; lia). done. }
        assert (b ≠ name) as Hb by (intros ->; by apply Hhead).
        rewrite filter_cons_True by done.
        replace (S (length pre)) with (length (pre ++ [b]))
          by (rewrite length_app; simpl; lia).
        rewrite (cons_middle b pre suf), app_assoc.
        rewrite IH; [by rewrite <- app_assoc | simpl in Hlen; lia | by destruct Hap].
      * rewrite filter_cons_True by done.
        replace (S (length pre)) with (length (pre ++ [a]))
          by (rewrite length_app; simpl; lia).
        rewrite (cons_middle a pre suf), app_assoc.
        rewrite IH; [by rewrite <- app_assoc | lia | done].
Qed.

(** On such an array the loop is the filter that [removeListener] uses. *)
Lemma purge_apart (name : string) (arr : list string) :
  apart name arr → purge name arr = filter (λ x, x ≠ name) arr.
Proof.
  intros Hap. unfold purge.
  apply (purge_from_apart name (length arr) arr []); done.
Qed.

Lemma purge_NoDup (name : string) (arr : list string) :
  NoDup arr → name ∉ purge name arr.
Proof.
  intros Hnd. rewrite purge_apart by by apply NoDup_apart.
  rewrite list_elem_of_filter. intros [Hne _]. by apply Hne.
Qed.

(** X24. Two neighbours equal to [name] at the head of the array: the
    second one moves into the slot the loop just left and is never visited,
    so the purged array still starts with [name]. *)
Lemma purge_pair (name : string) (rest : list string) :
  purge name (name :: name :: rest) !! 0 = Some name.
Proof.
  unfold purge. simpl. rewrite bool_decide_eq_true_2 by done. simpl.
  destruct (rest !! 0); rewrite purge_from_lookup_lt by lia;
    [case_bool_decide|]; done.
Qed.

Section EngineFacts.

Context {X : Type} `{External X}.

Implicit Types (w : World X) (reg : gmap string Plugin).

(** Unfolds the monad and the field accessors. *)
Ltac run :=
  unfold bind, ret, throw, defined, this_plugins, this_events, this_listeners,
    manager_getProfile, manager_canCall, manager_isActive, manager_canActivate,
    query, global_name_ref; simpl.

(** Runs a method as far as the hypotheses on the state decide it. *)
Ltac exec :=
  repeat first
    [ progress run | match goal with Heq : _ = _ |- _ => rewrite Heq end ].

(** ** Registration and construction *)

(** Without a registry, [register] fails on its first line. *)
Lemma register_undefined (plugin : Plugin) w :
  plugins w = None → register plugin w = (Throw TypeError, w).
Proof. intros Hw. unfold register. exec. done. Qed.

Lemma constructor_undefined (managerProfile : Profile) w :
  plugins w = None → fst (constructor managerProfile w) = Throw TypeError.
Proof.
  intros Hw. unfold constructor, new_PluginManager. run.
  rewrite register_undefined by done. done.
Qed.

(** ** Dispatch: what [callMethod] asks the manager

    In the four lemmas below [pc] is the profile fetched for [caller] and
    [pt] the one fetched for [target]. *)

Lemma callMethod_denied w reg caller target method args pc pt :
  plugins w = Some reg → is_Some (reg !! target) →
  getProfile (ext w) caller = Some pc → getProfile (ext w) target = Some pt →
  canCall (ext w) pt pc method = false →
  callMethod caller target method args w
  = (Throw (PermissionDenied caller method target), w).
Proof.
  intros Hreg [p Hp] Hpc Hpt Hcall. unfold callMethod. exec. done.
Qed.

Lemma callMethod_not_activatable w reg caller target method args pc pt :
  plugins w = Some reg → is_Some (reg !! target) →
  getProfile (ext w) caller = Some pc → getProfile (ext w) target = Some pt →
  canCall (ext w) pt pc method = true →
  isActive (ext w) target = false →
  canActivate (ext w) pt pc = false →
  callMethod caller target method args w
  = (Throw (NotActivatable method target), w).
Proof.
  intros Hreg [p Hp] Hpc Hpt Hcall Hact Hcan. unfold callMethod. run.
  exec. done.
Qed.

Lemma callMethod_not_exposed w reg caller target method args pc pt :
  plugins w = Some reg → is_Some (reg !! target) →
  getProfile (ext w) caller = Some pc → getProfile (ext w) target = Some pt →
  canCall (ext w) pt pc method = true →
  isActive (ext w) target = true →
  method ∉ methods pc →
  callMethod caller target method args w
  = (Throw (MethodNotExposed method target caller (methods pc)), w).
Proof.
  intros Hreg [p Hp] Hpc Hpt Hcall Hact Hout. unfold callMethod. run.
  exec. rewrite bool_decide_eq_false_2 by done. done.
Qed.

Lemma callMethod_dispatched w reg caller target method args pc pt :
  plugins w = Some reg → is_Some (reg !! target) →
  getProfile (ext w) caller = Some pc → getProfile (ext w) target = Some pt →
  canCall (ext w) pt pc method = true →
  isActive (ext w) target = true →
  method ∈ methods pc →
  callMethod caller target method args w
  = external (CAddRequest target caller method args)
             (plugin_addRequest target caller method args) w.
Proof.
  intros Hreg [p Hp] Hpc Hpt Hcall Hact Hin. unfold callMethod. run.
  exec. rewrite bool_decide_eq_true_2 by done. exec. done.
Qed.

(** ** The event registry *)

Lemma broadcast_nobody w ls emitter event args :
  listeners w = Some ls → ls !! listenEvent emitter event = None →
  broadcast emitter event args w = (Ok tt, w).
Proof. intros Hls Hk. unfold broadcast, deliver. exec. done. Qed.

Lemma broadcast_empty w ls emitter event args :
  listeners w = Some ls → ls !! listenEvent emitter event = Some [] →
  broadcast emitter event args w = (Ok tt, w).
Proof. intros Hls Hk. unfold broadcast, deliver. exec. done. Qed.

(** The listener has a callback table and the table has no entry for the
    event: the [throw] of line 40. *)
Lemma broadcast_no_callback w ls evs table emitter event args listener rest :
  listeners w = Some ls →
  ls !! listenEvent emitter event = Some (listener :: rest) →
  events w = Some evs → evs !! listener = Some table →
  table !! listenEvent emitter event = None →
  broadcast emitter event args w
  = (Throw (InternalConsistency listener event emitter), w).
Proof.
  intros Hls Hk Hevs Hl Ht. unfold broadcast, deliver. exec. done.
Qed.

(** The listener has no callback table: line 39 indexes [undefined]. *)
Lemma broadcast_no_table w ls evs emitter event args listener rest :
  listeners w = Some ls →
  ls !! listenEvent emitter event = Some (listener :: rest) →
  events w = Some evs → evs !! listener = None →
  broadcast emitter event args w = (Throw TypeError, w).
Proof.
  intros Hls Hk Hevs Hl. unfold broadcast, deliver. exec. done.
Qed.

Lemma logged_nil w : logged [] w = w.
Proof. destruct w. unfold logged. simpl. by rewrite app_nil_r. Qed.

Lemma logged_logged (cs cs' : list Call) w :
  logged cs' (logged cs w) = logged (cs ++ cs') w.
Proof. unfold logged. simpl. by rewrite app_assoc. Qed.

(** When every recorded listener has a plugin-supplied callback for the
    event and these callbacks return, the loop calls them one after the
    other, in the order of the array, each with the payload. *)
Lemma forEach_deliver (emitter event : string) (args : payload)
    (evs : gmap string (gmap string Callback)) (ids : string → nat)
    (recorded : list string) :
  (∀ id x, run_callback id args x = (Ok tt, x)) →
  (∀ listener, listener ∈ recorded →
     ∃ table, evs !! listener = Some table ∧
              table !! listenEvent emitter event = Some (UserCb (ids listener))) →
  ∀ w, events w = Some evs →
    forEach recorded (deliver emitter event args) w
    = (Ok tt, logged (map (λ listener, CCallback (ids listener) args) recorded) w).
Proof.
  intros Hquiet. induction recorded as [|listener rest IH]; intros Hcb w Hevs.
  - simpl. by rewrite logged_nil.
  - destruct (Hcb listener) as (table & Htable & Hstored); [left|].
    simpl. unfold bind at 1.
    assert (deliver emitter event args listener w
            = (Ok tt, logged [CCallback (ids listener) args] w)) as ->.
    { unfold deliver. exec. unfold external, logged. rewrite Hquiet, Hevs. done. }
    rewrite IH; [by rewrite logged_logged | | done].
    intros l Hl. apply Hcb. by right.
Qed.

(** [broadcast] on a consistent listener set. *)
Lemma broadcast_in_order w ls evs (ids : string → nat) emitter event args recorded :
  (∀ id x, run_callback id args x = (Ok tt, x)) →
  listeners w = Some ls →
  ls !! listenEvent emitter event = Some recorded →
  events w = Some evs →
  (∀ listener, listener ∈ recorded →
     ∃ table, evs !! listener = Some table ∧
              table !! listenEvent emitter event = Some (UserCb (ids listener))) →
  broadcast emitter event args w
  = (Ok tt, logged (map (λ listener, CCallback (ids listener) args) recorded) w).
Proof.
  intros Hquiet Hls Hk Hevs Hcb. unfold broadcast.
  unfold bind, this_listeners, defined, ret. rewrite Hls. simpl. rewrite Hk.
  by apply (forEach_deliver emitter event args evs ids).
Qed.

(** [removeListener] when nothing was ever recorded for the event. *)
Lemma removeListener_no_set w ls listener emitter event :
  listeners w = Some ls → ls !! listenEvent emitter event = None →
  removeListener listener emitter event w = (Throw TypeError, w).
Proof.
  intros Hls Hk. unfold removeListener. exec. done.
Qed.

(** [removeListener] when the set and the listener's table both exist. *)
Lemma removeListener_present w ls evs recorded table listener emitter event :
  listeners w = Some ls →
  ls !! listenEvent emitter event = Some recorded →
  events w = Some evs → evs !! listener = Some table →
  let out := removeListener listener emitter event w in
  fst out = Ok tt ∧
  listeners (snd out)
  = Some (<[listenEvent emitter event := filter (λ n, n ≠ listener) recorded]> ls) ∧
  events (snd out)
  = Some (<[listener := delete (listenEvent emitter event) table]> evs).
Proof.
  intros Hls Hk Hevs Hl. unfold removeListener, set_listeners, set_events. exec. done.
Qed.

(** Filtering out a name that is not in the array keeps the array. *)
Lemma filter_absent (listener : string) (recorded : list string) :
  listener ∉ recorded → filter (λ n, n ≠ listener) recorded = recorded.
Proof.
  induction recorded as [|a recorded IH]; intros Hout; [done|].
  rewrite filter_cons_True by (intros ->; apply Hout; left).
  rewrite IH; [done|]. intros Hin. apply Hout. by right.
Qed.

(** X23. [removeListener] for a listener that is not subscribed, when the
    set of the event and the table of the listener exist: nothing changes. *)
Lemma removeListener_noop w ls evs recorded table listener emitter event :
  listeners w = Some ls →
  ls !! listenEvent emitter event = Some recorded →
  listener ∉ recorded →
  events w = Some evs → evs !! listener = Some table →
  table !! listenEvent emitter event = None →
  removeListener listener emitter event w = (Ok tt, w).
Proof.
  intros Hls Hk Hout Hevs Hl Ht.
  unfold removeListener, set_listeners, set_events. exec.
  rewrite filter_absent by done.
  rewrite (delete_id table) by done.
  rewrite !insert_id by done.
  destruct w; simpl in *; by subst.
Qed.

(** What [addListener] records for an event nobody listened to yet: the
    value of the global [name]. *)
Lemma addListener_records w ls evs table listener emitter event cb g :
  events w = Some evs → evs !! listener = Some table →
  listeners w = Some ls → ls !! listenEvent emitter event = None →
  global_name w = Some g →
  let out := addListener listener emitter event cb w in
  fst out = Ok tt ∧
  ∃ ls', listeners (snd out) = Some ls' ∧
         ls' !! listenEvent emitter event = Some [g].
Proof.
  intros Hevs Hl Hls Hk Hg. unfold addListener, set_listeners, set_events. run.
  rewrite Hevs. simpl. rewrite Hl. simpl.
  destruct (table !! listenEvent emitter event); simpl;
    rewrite Hls; simpl; rewrite Hk; simpl;
    rewrite lookup_insert_eq; simpl; rewrite Hg; simpl;
    (split; [done|]); eexists; (split; [done|]);
    rewrite lookup_insert_eq; done.
Qed.

(** ** Claims proved for every implementation of the collaborators *)

(** C3. For every manager profile, every choice of hooks, every global scope
    and every state of the collaborators, the constructor runs on an object
    whose three maps were never assigned, its call to [register] indexes the
    missing plugin registry, and the construction fails with [TypeError]:
    nothing was registered, no map was created and no collaborator was
    called. *)
Theorem constructor_fails (managerProfile : Profile)
    (onReg onAct onDeact : bool) (g : option string) (x : X) :
  let out := constructor managerProfile (blank onReg onAct onDeact g x) in
  fst out = Throw TypeError ∧
  plugins (snd out) = None ∧ events (snd out) = None ∧
  listeners (snd out) = None ∧ trace (snd out) = [].
Proof.
  unfold constructor, new_PluginManager, blank, register. run. done.
Qed.

(** C8. When the name of a plugin object is already a key of the registry,
    [register] fails with [AlreadyRegistered] and leaves the whole state as
    it was: the handle stored first is still the one under that name, the
    collaborators were not touched (no [addProfile]) and nothing was added to
    the trace (no [addProfile], no [onRegistration]). *)
Theorem register_duplicate w reg (plugin first : Plugin) :
  plugins w = Some reg →
  reg !! plugin_name plugin = Some first →
  let out := register plugin w in
  fst out = Throw (AlreadyRegistered (plugin_name plugin)) ∧
  snd out = w ∧
  plugins (snd out) = Some reg ∧
  ext (snd out) = ext w ∧
  trace (snd out) = trace w.
Proof.
  intros Hreg Hfirst. unfold register. exec. done.
Qed.

(** X25. On an engine that has a registry: for a name that is neither a
    key of it nor a member of [Object.prototype], [activatePlugin] and
    [deactivatePlugin] fail with [NotRegistered] and change nothing; for a
    registered name, [activatePlugin] returns at once with the state
    unchanged (trace included, so no hook ran) when the manager says the
    plugin is active, and so does [deactivatePlugin] when the manager says it
    is inactive. *)
Theorem lifecycle_guards w reg (name : string) :
  plugins w = Some reg →
  match reg !! name with
  | None =>
      inherited name = false →
      activatePlugin name w = (Throw (NotRegistered OpActivate name), w) ∧
      deactivatePlugin name w = (Throw (NotRegistered OpDeactivate name), w)
  | Some _ =>
      (isActive (ext w) name = true → activatePlugin name w = (Ok tt, w)) ∧
      (isActive (ext w) name = false → deactivatePlugin name w = (Ok tt, w))
  end.
Proof.
  intros Hreg. destruct (reg !! name) as [p|] eqn:Hname.
  - split; intros Hact; [unfold activatePlugin|unfold deactivatePlugin];
      exec; done.
  - intros Hown.
    split; [unfold activatePlugin|unfold deactivatePlugin]; exec; done.
Qed.

(** C6, as amended. For a plugin that the manager reports active, in a
    state where no listener set holds a name twice, a call of
    [deactivatePlugin] that completes leaves the plugin without a callback
    table and its name in no listener set. *)
Theorem deactivatePlugin_purges w (name : string) :
  isActive (ext w) name = true →
  (∀ ls k arr, listeners w = Some ls → ls !! k = Some arr → NoDup arr) →
  fst (deactivatePlugin name w) = Ok tt →
  ∃ evs' ls',
    events (snd (deactivatePlugin name w)) = Some evs' ∧
    evs' !! name = None ∧
    listeners (snd (deactivatePlugin name w)) = Some ls' ∧
    ∀ k arr, ls' !! k = Some arr → name ∉ arr.
Proof.
  intros Hact Hnd.
  unfold deactivatePlugin, withdraw, update_plugin, hook, external,
    set_plugins, set_events, set_listeners.
  destruct (plugins w) as [reg|] eqn:Hreg; [|exec; done].
  destruct (reg !! name) as [p|] eqn:Hp;
    [|destruct (inherited name) eqn:Hin; exec; done].
  destruct (plugin_deactivate name (ext w)) as [[[]|e] x'] eqn:Hd;
    [|exec; done].
  destruct (events w) as [evs|] eqn:Hevs;
    [|exec; rewrite lookup_insert_eq; exec; done].
  destruct (listeners w) as [ls|] eqn:Hls;
    [|exec; rewrite lookup_insert_eq; exec; done].
  assert (∀ k arr, (purge name <$> ls) !! k = Some arr → name ∉ arr) as Hclean.
  { intros k arr. rewrite lookup_fmap.
    destruct (ls !! k) as [arr0|] eqn:Hk; simpl; [|done].
    intros [= <-]. apply purge_NoDup. eauto. }
  exec. rewrite lookup_insert_eq. exec. intros _.
  destruct (onDeactivated w); simpl;
    (eexists _, _; split; [done|]; split; [apply lookup_delete_eq|];
     split; [done|exact Hclean]).
Qed.

End EngineFacts.

(** ** Claims settled on concrete engines *)

(** C1. The exposure test of [callMethod] reads the methods of the profile
    fetched for the caller. With A exposing m and B exposing nothing, both
    active and every call permitted: A calling method m of B is dispatched to
    B although B does not expose m, and B calling method m of A is refused
    with [MethodNotExposed] although A exposes m, the list in the error being
    the caller's. *)
Theorem callMethod_exposure_reads_caller :
  getProfile (ext exposure_world) "B" = Some (profile_of "B" []) ∧
  fst (callMethod "A" "B" "m" [] exposure_world) = Ok (VStr "m") ∧
  trace (snd (callMethod "A" "B" "m" [] exposure_world))
  = [CAddRequest "B" "A" "m" []] ∧
  getProfile (ext exposure_world) "A" = Some (profile_of "A" ["m"]) ∧
  callMethod "B" "A" "m" [] exposure_world
  = (Throw (MethodNotExposed "m" "A" "B" []), exposure_world).
Proof. repeat split; vm_compute; reflexivity. Qed.

(** C5. [callMethod] asks [canCall] with the target's profile as [from] and
    the caller's profile as [to]. Where only B may call: A calling B is not
    permitted, yet it passes the check and the request reaches B; B calling A
    is permitted, yet it fails with [PermissionDenied]. *)
Theorem callMethod_canCall_arguments :
  canCall (ext permission_world) (profile_of "A" ["m"]) (profile_of "B" ["m"]) "m"
  = false ∧
  fst (callMethod "A" "B" "m" [] permission_world) = Ok (VStr "m") ∧
  trace (snd (callMethod "A" "B" "m" [] permission_world))
  = [CAddRequest "B" "A" "m" []] ∧
  canCall (ext permission_world) (profile_of "B" ["m"]) (profile_of "A" ["m"]) "m"
  = true ∧
  callMethod "B" "A" "m" [] permission_world
  = (Throw (PermissionDenied "B" "m" "A"), permission_world).
Proof. repeat split; vm_compute; reflexivity. Qed.

(** C4. [callMethod] asks [canActivate] with the target's profile as [from]
    and the caller's profile as [to]. Where only A may activate another
    plugin and both plugins are inactive: A calling B may activate it, yet
    the call fails with [NotActivatable] and nothing is activated or
    dispatched; B calling A may not, yet the manager is told to toggle A and
    the request is dispatched to A. *)
Theorem callMethod_canActivate_arguments :
  canActivate (ext activation_world) (profile_of "A" ["m"]) (profile_of "B" ["m"])
  = true ∧
  callMethod "A" "B" "m" [] activation_world
  = (Throw (NotActivatable "m" "B"), activation_world) ∧
  canActivate (ext activation_world) (profile_of "B" ["m"]) (profile_of "A" ["m"])
  = false ∧
  fst (callMethod "B" "A" "m" [] activation_world) = Ok (VStr "m") ∧
  trace (snd (callMethod "B" "A" "m" [] activation_world))
  = [CToggleActive "A"; CAddRequest "A" "B" "m" []].
Proof. repeat split; vm_compute; reflexivity. Qed.

(** C2. [addListener] records the value of the global [name], not the
    listener. With the global bound to the empty string, after L subscribes
    to event ev of E the listener set holds the empty string and not L, the
    callback is stored under L, and a broadcast of ev from E fails with
    [TypeError] without calling it; with the global unbound, [addListener]
    itself fails with [ReferenceError]. *)
Theorem addListener_records_global_name :
  let subscribed := addListener "L" "E" "ev" (UserCb 0) (listening_world (Some "")) in
  let sent := broadcast "E" "ev" [VNum 1; VNum 2] (snd subscribed) in
  fst subscribed = Ok tt ∧
  listener_set (snd subscribed) "E" "ev" = Some [""] ∧
  stored_callback (snd subscribed) "L" "E" "ev" = Some (UserCb 0) ∧
  fst sent = Throw TypeError ∧
  trace (snd sent) = [] ∧
  fst (addListener "L" "E" "ev" (UserCb 0) (listening_world None))
  = Throw ReferenceError.
Proof. repeat split; vm_compute; reflexivity. Qed.

(** C6, the claim as stated fails on two states. With P inactive and
    recorded in the listener set of (E, ev), [deactivatePlugin] completes at
    once and P is still recorded. With P active and recorded twice in that
    set, [deactivatePlugin] completes its purge and P is still recorded. *)
Lemma deactivatePlugin_leaves_name :
  let idle := deactivatePlugin "P" (recorded_world [] ["P"]) in
  let twice := deactivatePlugin "P" (recorded_world ["P"] ["P"; "P"]) in
  (isActive (ext (recorded_world [] ["P"])) "P" = false ∧
   fst idle = Ok tt ∧
   listener_set (snd idle) "E" "ev" = Some ["P"]) ∧
  (isActive (ext (recorded_world ["P"] ["P"; "P"])) "P" = true ∧
   fst twice = Ok tt ∧
   listener_set (snd twice) "E" "ev" = Some ["P"]) ∧
  ¬ (∀ emitter event arr,
       listener_set (snd twice) emitter event = Some arr → "P" ∉ arr).
Proof.
  assert (listener_set (snd (deactivatePlugin "P" (recorded_world ["P"] ["P"; "P"])))
                       "E" "ev" = Some ["P"]) as Hset
    by (vm_compute; reflexivity).
  simpl. split; [repeat split; vm_compute; reflexivity|].
  split; [split; [vm_compute; reflexivity|split; [vm_compute; reflexivity|exact Hset]]|].
  intros Hall. apply (Hall "E" "ev" ["P"] Hset). left.
Qed.

(** C7. A listener recorded without a callback table: [broadcast] does not
    reach the [throw] of the consistency check, it fails with [TypeError] on
    the lookup before it. *)
Theorem broadcast_orphan_listener :
  listener_set orphan_world "E" "ev" = Some ["L"] ∧
  stored_callback orphan_world "L" "E" "ev" = None ∧
  broadcast "E" "ev" [VNum 1] orphan_world = (Throw TypeError, orphan_world) ∧
  fst (broadcast "E" "ev" [VNum 1] orphan_world)
  ≠ Throw (InternalConsistency "L" "ev" "E").
Proof.
  assert (broadcast "E" "ev" [VNum 1] orphan_world = (Throw TypeError, orphan_world))
    as Hrun by (vm_compute; reflexivity).
  split; [vm_compute; reflexivity|].
  split; [vm_compute; reflexivity|].
  split; [exact Hrun|].
  rewrite Hrun. simpl. discriminate.
Qed.

(** C9. The guards of [activatePlugin] and [deactivatePlugin] find the
    members of [Object.prototype]. The name toString is no key of the
    registry, and neither method fails with [NotRegistered]: where the
    manager reports it inactive, [activatePlugin] creates a callback table
    for it and fails with [TypeError], and [deactivatePlugin] returns as if
    the plugin were registered and inactive; where the manager reports it
    active, [activatePlugin] returns as if it were registered and active, and
    [deactivatePlugin] fails with [TypeError]. *)
Theorem lifecycle_guards_inherited_name :
  two_plugins !! "toString" = None ∧
  fst (activatePlugin "toString" registry_world) = Throw TypeError ∧
  events (snd (activatePlugin "toString" registry_world))
  = Some {[ "toString" := ∅ ]} ∧
  deactivatePlugin "toString" registry_world = (Ok tt, registry_world) ∧
  activatePlugin "toString" eager_world = (Ok tt, eager_world) ∧
  deactivatePlugin "toString" eager_world = (Throw TypeError, eager_world).
Proof. repeat split; vm_compute; reflexivity. Qed.

(** C10. [removeListener] on a key for which nothing exists: with no
    listener set for (E, ev) it fails with [TypeError] and changes nothing;
    with a listener set but no callback table for the listener it rewrites
    the set and then fails with [TypeError]. *)
Theorem removeListener_absent :
  listener_set (listening_world (Some "")) "E" "ev" = None ∧
  removeListener "L" "E" "ev" (listening_world (Some ""))
  = (Throw TypeError, listening_world (Some "")) ∧
  stored_callback orphan_world "L" "E" "ev" = None ∧
  fst (removeListener "L" "E" "ev" orphan_world) = Throw TypeError ∧
  listener_set (snd (removeListener "L" "E" "ev" orphan_world)) "E" "ev" = Some [].
Proof. repeat split; vm_compute; reflexivity. Qed.

(** ** The general theorems at concrete engines *)

(** [register_duplicate] on a registry that already holds A. *)
Lemma register_duplicate_witness :
  let out := register (handle "A" ["other"]) registry_world in
  fst out = Throw (AlreadyRegistered "A") ∧
  snd out = registry_world ∧
  plugins (snd out) = Some two_plugins ∧
  ext (snd out) = ext registry_world ∧
  trace (snd out) = trace registry_world.
Proof.
  apply (register_duplicate registry_world two_plugins
           (handle "A" ["other"]) (handle "A" ["m"])).
  - reflexivity.
  - vm_compute. reflexivity.
Defined.

(** [lifecycle_guards] for a name that is not registered, for the active
    plugin A and for the inactive plugin B. *)
Lemma lifecycle_guards_witness :
  (activatePlugin "ghost" registry_world
   = (Throw (NotRegistered OpActivate "ghost"), registry_world) ∧
   deactivatePlugin "ghost" registry_world
   = (Throw (NotRegistered OpDeactivate "ghost"), registry_world)) ∧
  activatePlugin "A" registry_world = (Ok tt, registry_world) ∧
  deactivatePlugin "B" registry_world = (Ok tt, registry_world).
Proof.
  assert (two_plugins !! "ghost" = None) as Hghost by (vm_compute; reflexivity).
  assert (two_plugins !! "A" = Some (handle "A" ["m"])) as HA
    by (vm_compute; reflexivity).
  assert (two_plugins !! "B" = Some (handle "B" [])) as HB
    by (vm_compute; reflexivity).
  pose proof (lifecycle_guards registry_world two_plugins "ghost" eq_refl) as G.
  pose proof (lifecycle_guards registry_world two_plugins "A" eq_refl) as A.
  pose proof (lifecycle_guards registry_world two_plugins "B" eq_refl) as B.
  rewrite Hghost in G. rewrite HA in A. rewrite HB in B.
  split; [apply G; reflexivity|]. split.
  - apply A. vm_compute. reflexivity.
  - apply B. vm_compute. reflexivity.
Defined.

(** [deactivatePlugin_purges] for the active plugin P recorded once, after
    another listener. *)
Lemma deactivatePlugin_purges_witness :
  ∃ evs' ls',
    events (snd (deactivatePlugin "P" (recorded_world ["P"] ["Q"; "P"]))) = Some evs' ∧
    evs' !! "P" = None ∧
    listeners (snd (deactivatePlugin "P" (recorded_world ["P"] ["Q"; "P"]))) = Some ls' ∧
    ∀ k arr, ls' !! k = Some arr → "P" ∉ arr.
Proof.
  apply (deactivatePlugin_purges (recorded_world ["P"] ["Q"; "P"]) "P").
  - vm_compute. reflexivity.
  - intros ls k arr Hls Hk.
    unfold recorded_world, engine in Hls. simpl in Hls. injection Hls as <-.
    apply lookup_singleton_Some in Hk as [_ <-].
    apply (bool_decide_unpack _). vm_compute. exact I.
  - vm_compute. reflexivity.
Defined.

(** ** Further runs of the event registry *)

(** When the global [name] happens to be the listener's own name, the
    registry behaves as a subscription: each broadcast calls the callback
    once with the payload. *)
Example broadcast_twice :
  let subscribed := snd (addListener "L" "E" "ev" (UserCb 0) (listening_world (Some "L"))) in
  let first := snd (broadcast "E" "ev" [VNum 1; VNum 2] subscribed) in
  let second := snd (broadcast "E" "ev" [VNum 1; VNum 2] first) in
  listener_set subscribed "E" "ev" = Some ["L"] ∧
  trace first = [CCallback 0 [VNum 1; VNum 2]] ∧
  trace second = [CCallback 0 [VNum 1; VNum 2]; CCallback 0 [VNum 1; VNum 2]].
Proof. repeat split; vm_compute; reflexivity. Qed.

(** In the same situation a [listenOnce] callback is called by the first
    broadcast only. *)
Example listenOnce_once :
  let subscribed := snd (listenOnce "L" "E" "ev" (UserCb 0) (listening_world (Some "L"))) in
  let first := snd (broadcast "E" "ev" [VNum 1] subscribed) in
  let second := broadcast "E" "ev" [VNum 1] first in
  trace first = [CCallback 0 [VNum 1]] ∧
  listener_set first "E" "ev" = Some [] ∧
  fst second = Ok tt ∧
  trace (snd second) = [CCallback 0 [VNum 1]].
Proof. repeat split; vm_compute; reflexivity. Qed.

(** After a deactivation the capabilities of the plugin fail with
    [Deactivated]. *)
Example capabilities_withdrawn :
  let idle := snd (deactivatePlugin "P" (recorded_world ["P"] ["P"])) in
  fst (plugin_emit "P" "ev" [] idle) = Throw (Deactivated "P" (BlockedEmit "ev")) ∧
  fst (plugin_off "P" "E" "ev" idle) = Throw (Deactivated "P" BlockedOff) ∧
  fst (plugin_call "P" "P" "m" [] idle)
  = Throw (Deactivated "P" (BlockedCall "m" "P")).
Proof. repeat split; vm_compute; reflexivity. Qed.

(** * Further properties of the engine *)

Section EngineCoverage.

Context {X : Type} `{External X}.

Implicit Types (w : World X) (reg : gmap string Plugin).

(** Unfolds the monad, the field accessors and the calls to collaborators. *)
Ltac unfold_engine :=
  unfold bind, ret, throw, defined, detached, this_plugins, this_events,
    this_listeners, set_plugins, set_events, set_listeners, update_plugin,
    install, install_on_builtin, withdraw, createApp, manager_getProfile, manager_canCall, manager_isActive, manager_canActivate,
    manager_addProfile, manager_toggleActive, hook, external, query,
    global_name_ref; simpl.

(** Runs a method along the equations in the context. *)
Ltac follow :=
  repeat first
    [ progress unfold_engine
    | match goal with Heq : _ = _ |- _ => rewrite Heq end ].

(** Case analysis on a scrutinee that is not itself a case analysis. *)
Ltac split_scrutinee :=
  match goal with
  | |- context [match ?x with _ => _ end] =>
      lazymatch x with
      | context [match _ with _ => _ end] => fail
      | _ => destruct x eqn:?
      end
  end.

(** Runs a method along every branch it can take. *)
Ltac branches :=
  repeat first
    [ progress unfold_engine
    | match goal with Heq : _ = _ |- _ => rewrite Heq end
    | split_scrutinee ].

(** ** Registration *)

(** X1. A plugin whose name is neither a key of the registry nor a member
    of [Object.prototype] is stored under its name as it was given (so
    neither activated nor wired), its profile goes to the manager, the hook
    [onRegistration] fires when there is one, and the event tables are not
    touched. *)
Theorem register_stores w reg (plugin : Plugin) :
  plugins w = Some reg →
  reg !! plugin_name plugin = None →
  inherited (plugin_name plugin) = false →
  let out := register plugin w in
  fst out = Ok tt ∧
  plugins (snd out) = Some (<[plugin_name plugin := plugin]> reg) ∧
  events (snd out) = events w ∧
  listeners (snd out) = listeners w ∧
  ext (snd out) = addProfile (plugin_profile plugin) (ext w) ∧
  trace (snd out)
  = trace w ++ CAddProfile (plugin_profile plugin)
      :: (if onRegistration w then [COnRegistration (plugin_name plugin)] else []).
Proof.
  intros Hreg Hfree Hown. unfold register. follow.
  destruct (onRegistration w); simpl; by rewrite <- ?app_assoc.
Qed.

(** X2. Registering a second plugin object under a name that was just
    registered (a name that was neither a key of the registry nor a member
    of [Object.prototype]) fails with [AlreadyRegistered] and changes
    nothing: the registry still maps the name to the first object. *)
Theorem register_twice w reg (first second : Plugin) :
  plugins w = Some reg →
  reg !! plugin_name first = None →
  inherited (plugin_name first) = false →
  plugin_name second = plugin_name first →
  let once := snd (register first w) in
  let out := register second once in
  fst out = Throw (AlreadyRegistered (plugin_name first)) ∧
  snd out = once ∧
  ∃ reg', plugins (snd out) = Some reg' ∧ reg' !! plugin_name first = Some first.
Proof.
  intros Hreg Hfree Hown Hname. unfold register. follow.
  destruct (onRegistration w); simpl; rewrite ?lookup_insert_eq;
    (split; [done|]; split; [done|]); eexists; (split; [done|]);
    apply lookup_insert_eq.
Qed.

(** X26. A plugin whose name is a member of [Object.prototype] cannot be
    registered: [register] fails with [AlreadyRegistered] although the
    registry may hold no plugin of that name, and changes nothing. *)
Theorem register_inherited_name w reg (plugin : Plugin) :
  plugins w = Some reg →
  inherited (plugin_name plugin) = true →
  register plugin w = (Throw (AlreadyRegistered (plugin_name plugin)), w).
Proof.
  intros Hreg Hin. unfold register. follow.
  destruct (reg !! plugin_name plugin); follow; done.
Qed.

(** ** Dispatch *)

(** X3. A call to a target that is neither a key of the registry nor a
    member of [Object.prototype] fails with [NotRegistered], whoever the
    caller is and whatever the manager would answer, and the state is
    unchanged. *)
Theorem callMethod_unregistered w reg (caller target method : string) (args : payload) :
  plugins w = Some reg →
  reg !! target = None →
  inherited target = false →
  callMethod caller target method args w
  = (Throw (NotRegistered (OpCall caller) target), w).
Proof. intros Hreg Hnone Hown. unfold callMethod. follow. done. Qed.

(** ** The app snapshot *)

(** Fetching profiles only reads: the state is the one it started from.
    Either every key has a profile and the result lists them in the order of
    the keys, or the first key without a profile is reported. *)
Lemma getProfiles_run (keys : list string) w :
  ∃ r, getProfiles keys w = (r, w) ∧
       match r with
       | Ok profiles =>
           Forall2 (λ key p, getProfile (ext w) key = Some p) keys profiles
       | Throw e =>
           ∃ key, key ∈ keys ∧ getProfile (ext w) key = None ∧ e = Failure key
       end.
Proof.
  induction keys as [|key keys IH]; simpl.
  - eexists. split; [done|]. constructor.
  - destruct IH as (r & Hrun & Hr).
    destruct (getProfile (ext w) key) as [p|] eqn:Hkey; follow.
    + destruct r as [profiles|e]; simpl.
      * eexists. split; [done|]. by constructor.
      * eexists. split; [done|]. destruct Hr as (k & Hk & Hnone & ->).
        exists k. split; [by right|done].
    + eexists. split; [done|]. exists key. split; [left|done].
Qed.

Lemma elem_of_keys reg (key : string) :
  key ∈ map fst (map_to_list reg) ↔ is_Some (reg !! key).
Proof.
  rewrite list_elem_of_fmap. split.
  - intros ([k p] & -> & Hin). apply elem_of_map_to_list in Hin. by eexists.
  - intros [p Hp]. exists (key, p). split; [done|]. by apply elem_of_map_to_list.
Qed.

(** X5. [createApp] reads and changes nothing. When it succeeds the
    snapshot is bound to the caller and holds, for each registered name in
    turn, the profile the manager has for that name; it fails exactly on a
    registered name for which the manager has no profile. *)
Theorem createApp_snapshot w reg (name : string) :
  plugins w = Some reg →
  let out := createApp name w in
  snd out = w ∧
  match fst out with
  | Ok a =>
      app_caller a = name ∧
      Forall2 (λ key p, getProfile (ext w) key = Some p)
        (map fst (map_to_list reg)) (app_targets a)
  | Throw e =>
      ∃ key, is_Some (reg !! key) ∧ getProfile (ext w) key = None ∧ e = Failure key
  end.
Proof.
  intros Hreg. unfold createApp. follow.
  destruct (getProfiles_run (map fst (map_to_list reg)) w) as (r & Hrun & Hr).
  rewrite Hrun. destruct r as [profiles|e]; simpl; (split; [done|]).
  - done.
  - destruct Hr as (key & Hin & Hnone & ->). exists key.
    split; [by apply elem_of_keys|done].
Qed.

(** ** Activation *)

(** X6. What [activatePlugin] sets up for a registered plugin before it
    calls the [activate] hook (lines 176-196), on an engine that has
    callback tables and whose registered names all have a profile: the
    plugin gets an empty callback table, live capabilities and a snapshot
    bound to its name that holds exactly one profile per registered name,
    the one the manager has for that name; nothing else changes. [keys]
    lists the registered names, each once, in the order of the snapshot. *)
Theorem install_wires w reg evs (p : Plugin) (name : string) :
  plugins w = Some reg → reg !! name = Some p →
  events w = Some evs →
  (∀ key, is_Some (reg !! key) → is_Some (getProfile (ext w) key)) →
  let out := install name w in
  ∃ keys profiles,
    NoDup keys ∧
    (∀ key, key ∈ keys ↔ is_Some (reg !! key)) ∧
    Forall2 (λ key q, getProfile (ext w) key = Some q) keys profiles ∧
    fst out = Ok tt ∧
    plugins (snd out) = Some (<[name := wired name profiles p]> reg) ∧
    events (snd out) = Some (<[name := ∅]> evs) ∧
    listeners (snd out) = listeners w ∧
    ext (snd out) = ext w ∧
    trace (snd out) = trace w.
Proof.
  intros Hreg Hp Hevs Hknown.
  set (reg1 := <[name := with_bundle (Live name) p]> reg).
  assert (∀ key, key ∈ map fst (map_to_list reg1) ↔ is_Some (reg !! key)) as Hkeys.
  { intros key. rewrite elem_of_keys. unfold reg1.
    destruct (decide (key = name)) as [->|Hne].
    - rewrite lookup_insert_eq, Hp. split; by eexists.
    - by rewrite lookup_insert_ne. }
  unfold install, createApp. follow. fold reg1.
  destruct (getProfiles_run (map fst (map_to_list reg1))
              {| plugins := Some reg1; events := Some (<[name := ∅]> evs);
                 listeners := listeners w; onRegistration := onRegistration w;
                 onActivated := onActivated w; onDeactivated := onDeactivated w;
                 global_name := global_name w; ext := ext w; trace := trace w |})
    as (rp & Hrun & Hr).
  rewrite Hrun. simpl in Hr. destruct rp as [profiles|e]; simpl.
  - exists (map fst (map_to_list reg1)), profiles. follow.
    assert (reg1 !! name = Some (with_bundle (Live name) p)) as Hlook
      by apply lookup_insert_eq.
    rewrite Hlook. follow.
    split; [apply NoDup_fst_map_to_list|].
    split; [exact Hkeys|]. split; [exact Hr|].
    unfold reg1. by rewrite insert_insert_eq.
  - destruct Hr as (key & Hin & Hnone & _). exfalso.
    apply Hkeys, Hknown in Hin. rewrite Hnone in Hin. by destruct Hin.
Qed.

(** Runs a method along every branch, the fetch of profiles being a read. *)
Ltac all_branches :=
  repeat first
    [ progress unfold_engine
    | match goal with Heq : _ = _ |- _ => rewrite Heq end
    | match goal with
      | |- context [getProfiles ?keys ?w1] =>
          let Hrun := fresh "Hrun" in
          destruct (getProfiles_run keys w1) as (? & Hrun & _);
          rewrite Hrun; clear Hrun
      end
    | rewrite lookup_insert_eq
    | split_scrutinee ].

Lemma activatePlugin_listeners w (name : string) :
  listeners (snd (activatePlugin name w)) = listeners w.
Proof. unfold activatePlugin, createApp. all_branches; done. Qed.

Lemma activatePlugin_other_table w (name other : string) :
  other ≠ name →
  callback_table (snd (activatePlugin name w)) other = callback_table w other.
Proof.
  intros Hne. unfold activatePlugin, createApp, callback_table.
  all_branches; rewrite ?lookup_insert_ne by done; congruence.
Qed.

(** ** Deactivation *)

(** The plugin object after a deactivation that completed. *)
Lemma deactivatePlugin_stand_in w (name : string) :
  isActive (ext w) name = true →
  fst (deactivatePlugin name w) = Ok tt →
  ∃ reg' p',
    plugins (snd (deactivatePlugin name w)) = Some reg' ∧
    reg' !! name = Some p' ∧
    bundle p' = StandIn name ∧ app p' = None ∧ createApp_slot p' = None.
Proof.
  intros Hact. unfold deactivatePlugin. all_branches; try done;
    intros _; eexists _, _; (split; [done|]);
    rewrite lookup_insert_eq; done.
Qed.

(** X9. After a deactivation that completed, each of the five capabilities
    of the plugin fails with [Deactivated], naming the plugin and the
    operation, and changes nothing. *)
Theorem deactivatePlugin_withdraws w (name : string) :
  isActive (ext w) name = true →
  fst (deactivatePlugin name w) = Ok tt →
  let w' := snd (deactivatePlugin name w) in
  (∀ target method args,
     plugin_call name target method args w'
     = (Throw (Deactivated name (BlockedCall method target)), w')) ∧
  (∀ emitter event cb,
     plugin_on name emitter event cb w'
     = (Throw (Deactivated name (BlockedOn event emitter)), w')) ∧
  (∀ emitter event cb,
     plugin_once name emitter event cb w'
     = (Throw (Deactivated name (BlockedOnce event emitter)), w')) ∧
  (∀ emitter event,
     plugin_off name emitter event w' = (Throw (Deactivated name BlockedOff), w')) ∧
  (∀ event args,
     plugin_emit name event args w'
     = (Throw (Deactivated name (BlockedEmit event)), w')).
Proof.
  intros Hact Hok.
  destruct (deactivatePlugin_stand_in w name Hact Hok)
    as (reg' & p' & Hreg' & Hp' & Hbundle & _).
  simpl. unfold plugin_call, plugin_on, plugin_once, plugin_off, plugin_emit,
    capability.
  repeat split; intros; follow; done.
Qed.

(** Removing an occurrence of [name] does not change what is left once
    every [name] is filtered out. *)
Lemma filter_delete_name (name : string) (arr : list string) (k : nat) :
  arr !! k = Some name →
  filter (λ n, n ≠ name) (delete k arr) = filter (λ n, n ≠ name) arr.
Proof.
  revert k. induction arr as [|a arr IH]; intros [|k] Hk; simpl in *; try done.
  - injection Hk as ->. by rewrite filter_cons_False by (intros Hne; by apply Hne).
  - rewrite !filter_cons. by rewrite (IH k Hk).
Qed.

(** Whatever the array, the loop removes nothing but occurrences of
    [name], and keeps the others in their order. *)
Lemma purge_from_others (name : string) (n k : nat) (arr : list string) :
  filter (λ x, x ≠ name) (purge_from name k n arr) = filter (λ x, x ≠ name) arr.
Proof.
  revert k arr. induction n as [|n IH]; intros k arr; simpl; [done|].
  destruct (arr !! k) as [listener|] eqn:Hk; rewrite IH; [|done].
  case_bool_decide as Hname; [|done]. subst listener.
  by apply filter_delete_name.
Qed.

(** X10. What [deactivatePlugin] takes back after the [deactivate] hook
    returned (lines 219-253): whatever its outcome and whatever the listener
    sets hold, it takes nothing but occurrences of [name] out of a listener
    set (the other listeners stay, in their order, and no set disappears)
    and leaves the callback tables of the other plugins as they were: the
    subscriptions of other plugins to the events of [name] are kept. *)
Theorem withdraw_keeps_others w (name : string) :
  let w' := snd (withdraw name w) in
  (∀ ls k arr, listeners w = Some ls → ls !! k = Some arr →
     ∃ ls' arr', listeners w' = Some ls' ∧ ls' !! k = Some arr' ∧
                 filter (λ n, n ≠ name) arr' = filter (λ n, n ≠ name) arr) ∧
  (∀ other, other ≠ name → callback_table w' other = callback_table w other).
Proof.
  simpl. split.
  - intros ls k arr Hls Hk. unfold withdraw.
    all_branches;
      try (eexists _, _; split; [done|]; split; [exact Hk|done]);
      (eexists _, _; split; [done|]; split;
         [by rewrite lookup_fmap, Hk | apply purge_from_others]).
  - intros other Hne. unfold withdraw, callback_table.
    all_branches; rewrite ?lookup_delete_ne by done; congruence.
Qed.

(** ** The event registry *)

(** X11. The first callback registered for a (listener, emitter, event)
    stays: a later [addListener] for the same triple never replaces it,
    whatever its outcome. *)
Theorem addListener_first_wins w (listener emitter event : string) (cb0 cb : Callback) :
  stored_callback w listener emitter event = Some cb0 →
  stored_callback (snd (addListener listener emitter event cb w)) listener emitter event
  = Some cb0.
Proof.
  unfold stored_callback. intros Hstored.
  destruct (events w) as [evs|] eqn:Hevs; [|done].
  destruct (evs !! listener) as [table|] eqn:Htable; [|done].
  unfold addListener. all_branches; done.
Qed.

(** X12. A [removeListener] that completes leaves no callback stored for
    the triple and a listener set that is the former one without the
    listener, the others in their order. *)
Theorem removeListener_unsubscribes w (listener emitter event : string) :
  fst (removeListener listener emitter event w) = Ok tt →
  let w' := snd (removeListener listener emitter event w) in
  stored_callback w' listener emitter event = None ∧
  ∃ arr, listener_set w emitter event = Some arr ∧
         listener_set w' emitter event = Some (filter (λ n, n ≠ listener) arr) ∧
         listener ∉ filter (λ n, n ≠ listener) arr.
Proof.
  unfold removeListener, stored_callback, listener_set.
  all_branches; try done; intros _.
  split; [by rewrite lookup_delete_eq|].
  eexists. split; [done|]. split; [done|].
  rewrite list_elem_of_filter. intros [Hne _]. by apply Hne.
Qed.

(** *** Listener sets hold no name twice *)

Lemma duplicate_free_listeners w w' :
  listeners w' = listeners w → duplicate_free w → duplicate_free w'.
Proof. intros Heq Hdf ls k arr Hls. rewrite Heq in Hls. by apply Hdf. Qed.

Lemma duplicate_free_bind {A B} (m : M A) (k : A → M B) w :
  (∀ w0, duplicate_free w0 → duplicate_free (snd (m w0))) →
  (∀ a w0, duplicate_free w0 → duplicate_free (snd (k a w0))) →
  duplicate_free w → duplicate_free (snd (bind m k w)).
Proof.
  intros Hm Hk Hdf. unfold bind. specialize (Hm w Hdf).
  destruct (m w) as [[a|e] w1]; simpl in *; [by apply Hk|done].
Qed.

(** Decides a lookup in a listener table that was just written. *)
Ltac written_set :=
  repeat match goal with
  | Hk : <[_ := _]> _ !! _ = Some _ |- _ =>
      rewrite lookup_insert in Hk; case_decide; simplify_eq
  end.

Lemma addListener_duplicate_free w (listener emitter event : string) (cb : Callback) :
  duplicate_free w →
  duplicate_free (snd (addListener listener emitter event cb w)).
Proof.
  intros Hdf. unfold addListener.
  all_branches; try done;
    intros ls0 k0 arr0 Hls0 Hk0; simpl in *; simplify_eq; written_set;
    try (by eapply Hdf);
    try apply NoDup_nil_2;
    try (apply NoDup_app; split; [by eapply Hdf|];
         split; [|apply NoDup_singleton];
         intros x Hx Hg; apply list_elem_of_singleton in Hg; subst x;
         match goal with
         | Hb : bool_decide _ = false |- _ =>
             by apply bool_decide_eq_false_1 in Hb
         end);
    try (simpl; apply NoDup_singleton).
Qed.

Lemma removeListener_duplicate_free w (listener emitter event : string) :
  duplicate_free w →
  duplicate_free (snd (removeListener listener emitter event w)).
Proof.
  intros Hdf. unfold removeListener.
  all_branches; try done;
    intros ls0 k0 arr0 Hls0 Hk0; simpl in *; simplify_eq; written_set;
    try (by eapply Hdf);
    apply NoDup_filter; by eapply Hdf.
Qed.

Lemma deactivatePlugin_duplicate_free w (name : string) :
  duplicate_free w → duplicate_free (snd (deactivatePlugin name w)).
Proof.
  intros Hdf. unfold deactivatePlugin.
  all_branches; try done;
    intros ls0 k0 arr0 Hls0 Hk0; simpl in *; simplify_eq;
    try (by eapply Hdf);
    rewrite lookup_fmap in Hk0;
    destruct (_ !! k0) as [arr|] eqn:Harr; simplify_eq/=;
    rewrite purge_apart by (apply NoDup_apart; by eapply Hdf);
    apply NoDup_filter; by eapply Hdf.
Qed.

Lemma invoke_duplicate_free (cb : Callback) (args : payload) w :
  duplicate_free w → duplicate_free (snd (invoke cb args w)).
Proof.
  revert w. induction cb as [id|listener emitter event cb IH| |]; intros w Hdf; simpl.
  - unfold external. destruct (run_callback id args (ext w)). done.
  - apply duplicate_free_bind; [done| |done].
    intros _ w0. apply removeListener_duplicate_free.
  - apply duplicate_free_bind; [|intros name w0 Hw0|done].
    + intros w0 Hw0. unfold destructure_name. by all_branches.
    + unfold detached. simpl.
      eapply duplicate_free_listeners; [apply activatePlugin_listeners|done].
  - apply duplicate_free_bind; [|intros name w0 Hw0|done].
    + intros w0 Hw0. unfold destructure_name. by all_branches.
    + unfold detached. simpl. by apply deactivatePlugin_duplicate_free.
Qed.

Lemma deliver_duplicate_free (emitter event listener : string) (args : payload) w :
  duplicate_free w → duplicate_free (snd (deliver emitter event args listener w)).
Proof.
  intros Hdf. unfold deliver.
  destruct (events w) as [evs|] eqn:Hevs; [|by follow].
  destruct (evs !! listener) as [table|] eqn:Htable; [|by follow].
  destruct (table !! listenEvent emitter event) as [cb|] eqn:Hcb; follow; [|done].
  by apply invoke_duplicate_free.
Qed.

Lemma forEach_duplicate_free (f : string → M unit) (l : list string) w :
  (∀ a w0, duplicate_free w0 → duplicate_free (snd (f a w0))) →
  duplicate_free w → duplicate_free (snd (forEach l f w)).
Proof.
  intros Hf. revert w. induction l as [|a l IH]; intros w Hdf; simpl; [done|].
  apply duplicate_free_bind; [by apply Hf | by intros _ w0; apply IH | done].
Qed.

Lemma broadcast_duplicate_free (emitter event : string) (args : payload) w :
  duplicate_free w → duplicate_free (snd (broadcast emitter event args w)).
Proof.
  intros Hdf. unfold broadcast.
  destruct (listeners w) as [ls|] eqn:Hls; [|by follow].
  destruct (ls !! listenEvent emitter event) as [recorded|] eqn:Hrec; follow;
    [|done].
  apply forEach_duplicate_free; [|done].
  intros a w0. apply deliver_duplicate_free.
Qed.

(** X13. Every method of the engine keeps the listener sets free of
    duplicates: from a state in which no listener set holds a name twice,
    each of them, whatever its arguments and its outcome, ends in such a
    state. *)
Theorem duplicate_free_kept w :
  duplicate_free w →
  (∀ plugin, duplicate_free (snd (register plugin w))) ∧
  (∀ caller target method args,
     duplicate_free (snd (callMethod caller target method args w))) ∧
  (∀ name, duplicate_free (snd (activatePlugin name w))) ∧
  (∀ name, duplicate_free (snd (deactivatePlugin name w))) ∧
  (∀ listener emitter event cb,
     duplicate_free (snd (addListener listener emitter event cb w))) ∧
  (∀ listener emitter event cb,
     duplicate_free (snd (listenOnce listener emitter event cb w))) ∧
  (∀ listener emitter event,
     duplicate_free (snd (removeListener listener emitter event w))) ∧
  (∀ emitter event args,
     duplicate_free (snd (broadcast emitter event args w))).
Proof.
  intros Hdf. repeat split; intros.
  - eapply duplicate_free_listeners; [|done].
    unfold register. all_branches; done.
  - eapply duplicate_free_listeners; [|done].
    unfold callMethod. all_branches; done.
  - eapply duplicate_free_listeners; [apply activatePlugin_listeners|done].
  - by apply deactivatePlugin_duplicate_free.
  - by apply addListener_duplicate_free.
  - by apply addListener_duplicate_free.
  - by apply removeListener_duplicate_free.
  - by apply broadcast_duplicate_free.
Qed.

(** X14. [listenOnce] delivers once. Where the global [name] is the
    listener's own name, the listener has a callback table without an entry
    for the event, nobody listens to the event yet and the callback returns:
    the first broadcast calls the callback with the payload and unsubscribes
    the listener; a second broadcast calls nothing and changes nothing. *)
Theorem listenOnce_delivers_once w evs ls (table : gmap string Callback)
    (listener emitter event : string) (id : nat) (args : payload) (x' : X) :
  global_name w = Some listener →
  events w = Some evs → evs !! listener = Some table →
  table !! listenEvent emitter event = None →
  listeners w = Some ls → ls !! listenEvent emitter event = None →
  run_callback id args (ext w) = (Ok tt, x') →
  let subscribed := snd (listenOnce listener emitter event (UserCb id) w) in
  let first := broadcast emitter event args subscribed in
  fst first = Ok tt ∧
  trace (snd first) = trace w ++ [CCallback id args] ∧
  listener_set (snd first) emitter event = Some [] ∧
  stored_callback (snd first) listener emitter event = None ∧
  broadcast emitter event args (snd first) = (Ok tt, snd first).
Proof.
  intros Hg Hevs Htable Hfree Hls Hnone Hcb.
  unfold listenOnce, addListener, broadcast, deliver, listener_set, stored_callback.
  repeat first
    [ progress follow
    | rewrite lookup_insert_eq
    | rewrite bool_decide_eq_false_2 by apply not_elem_of_nil
    | progress unfold removeListener
    | rewrite filter_cons_False by (intros Hne; by apply Hne)
    | rewrite filter_nil
    | rewrite lookup_delete_eq ].
  done.
Qed.

(** ** Bootstrap *)

(** X15. [activateManager] subscribes the engine under the listener name
    [__root__], and a callback table exists only for a name that was
    activated: unless a table for [__root__] exists beforehand,
    [activateManager] does not complete, and neither of the two root
    callbacks is stored. *)
Theorem activateManager_needs_root_table w :
  callback_table w "__root__" = None →
  let out := activateManager w in
  fst out ≠ Ok tt ∧
  stored_callback (snd out) "__root__" "manager" "activated" = None ∧
  stored_callback (snd out) "__root__" "manager" "deactivated" = None.
Proof.
  intros Hroot.
  pose proof (activatePlugin_other_table w "manager" "__root__") as Hkept.
  rewrite Hroot in Hkept. specialize (Hkept ltac:(done)).
  unfold activateManager, bind.
  destruct (activatePlugin "manager" w) as [[[]|e] w1]; simpl in *.
  - unfold callback_table in Hkept. unfold addListener, stored_callback.
    destruct (events w1) as [evs|] eqn:Hevs; follow; done.
  - unfold callback_table in Hkept. unfold stored_callback.
    destruct (events w1) as [evs|]; [rewrite Hkept|]; done.
Qed.

End EngineCoverage.

(** ** The further properties at concrete engines *)

Lemma two_plugins_free : two_plugins !! "C" = None.
Proof. vm_compute. reflexivity. Qed.

Lemma recorded_world_duplicate_free : duplicate_free (recorded_world ["P"] ["Q"; "P"]).
Proof.
  intros ls k arr Hls Hk.
  unfold recorded_world, engine in Hls. simpl in Hls. injection Hls as <-.
  apply lookup_singleton_Some in Hk as [_ <-].
  apply (bool_decide_unpack _). vm_compute. exact I.
Qed.

(** [register_stores] for a third plugin C. *)
Lemma register_stores_witness :
  let out := register (handle "C" []) registry_world in
  fst out = Ok tt ∧
  plugins (snd out) = Some (<["C" := handle "C" []]> two_plugins) ∧
  events (snd out) = events registry_world ∧
  listeners (snd out) = listeners registry_world ∧
  ext (snd out) = addProfile (profile_of "C" []) (ext registry_world) ∧
  trace (snd out) = [CAddProfile (profile_of "C" []); COnRegistration "C"].
Proof.
  apply (register_stores registry_world two_plugins (handle "C" []));
    [reflexivity | exact two_plugins_free | reflexivity].
Defined.

(** [register_twice] for two plugin objects named C. *)
Lemma register_twice_witness :
  let once := snd (register (handle "C" []) registry_world) in
  let out := register (handle "C" ["m"]) once in
  fst out = Throw (AlreadyRegistered "C") ∧
  snd out = once ∧
  ∃ reg', plugins (snd out) = Some reg' ∧ reg' !! "C" = Some (handle "C" []).
Proof.
  apply (register_twice registry_world two_plugins (handle "C" []) (handle "C" ["m"]));
    [reflexivity | exact two_plugins_free | reflexivity | reflexivity].
Defined.

(** [register_inherited_name] for a plugin named constructor. *)
Lemma register_inherited_name_witness :
  register (handle "constructor" []) registry_world
  = (Throw (AlreadyRegistered "constructor"), registry_world).
Proof.
  apply (register_inherited_name registry_world two_plugins (handle "constructor" []));
    reflexivity.
Defined.

(** [callMethod_unregistered] for a call from A to C. *)
Lemma callMethod_unregistered_witness :
  callMethod "A" "C" "m" [] registry_world
  = (Throw (NotRegistered (OpCall "A") "C"), registry_world).
Proof.
  apply (callMethod_unregistered registry_world two_plugins "A" "C" "m" []);
    [reflexivity | exact two_plugins_free | reflexivity].
Defined.

(** [createApp_snapshot] for the snapshot of A. *)
Lemma createApp_snapshot_witness :
  let out := createApp "A" registry_world in
  snd out = registry_world ∧
  match fst out with
  | Ok a =>
      app_caller a = "A" ∧
      Forall2 (λ key p, getProfile (ext registry_world) key = Some p)
        (map fst (map_to_list two_plugins)) (app_targets a)
  | Throw e =>
      ∃ key, is_Some (two_plugins !! key) ∧
             getProfile (ext registry_world) key = None ∧ e = Failure key
  end.
Proof. apply (createApp_snapshot registry_world two_plugins "A"). reflexivity. Defined.

Lemma two_plugins_known (key : string) :
  is_Some (two_plugins !! key) →
  is_Some (getProfile (ext registry_world) key).
Proof.
  unfold two_plugins. intros [p Hp].
  apply lookup_insert_Some in Hp as [[<- _]|[_ Hp]]; [by eexists|].
  apply lookup_singleton_Some in Hp as [<- _]. by eexists.
Qed.

(** [install_wires] for the plugin B. *)
Lemma install_wires_witness :
  let out := install "B" registry_world in
  ∃ keys profiles,
    NoDup keys ∧
    (∀ key, key ∈ keys ↔ is_Some (two_plugins !! key)) ∧
    Forall2 (λ key q, getProfile (ext registry_world) key = Some q) keys profiles ∧
    fst out = Ok tt ∧
    plugins (snd out) = Some (<["B" := wired "B" profiles (handle "B" [])]> two_plugins) ∧
    events (snd out) = Some (<["B" := ∅]> ∅) ∧
    listeners (snd out) = listeners registry_world ∧
    ext (snd out) = ext registry_world ∧
    trace (snd out) = trace registry_world.
Proof.
  apply (install_wires registry_world two_plugins ∅ (handle "B" []) "B").
  - reflexivity.
  - vm_compute. reflexivity.
  - reflexivity.
  - exact two_plugins_known.
Defined.

(** [deactivatePlugin_withdraws] for the active plugin P. *)
Lemma deactivatePlugin_withdraws_witness :
  let w' := snd (deactivatePlugin "P" (recorded_world ["P"] ["P"])) in
  (∀ target method args,
     plugin_call "P" target method args w'
     = (Throw (Deactivated "P" (BlockedCall method target)), w')) ∧
  (∀ emitter event cb,
     plugin_on "P" emitter event cb w'
     = (Throw (Deactivated "P" (BlockedOn event emitter)), w')) ∧
  (∀ emitter event cb,
     plugin_once "P" emitter event cb w'
     = (Throw (Deactivated "P" (BlockedOnce event emitter)), w')) ∧
  (∀ emitter event,
     plugin_off "P" emitter event w' = (Throw (Deactivated "P" BlockedOff), w')) ∧
  (∀ event args,
     plugin_emit "P" event args w'
     = (Throw (Deactivated "P" (BlockedEmit event)), w')).
Proof.
  apply (deactivatePlugin_withdraws (recorded_world ["P"] ["P"]) "P");
    vm_compute; reflexivity.
Defined.

(** [addListener_first_wins] for a second subscription of P to (E, ev). *)
Lemma addListener_first_wins_witness :
  stored_callback
    (snd (addListener "P" "E" "ev" (UserCb 1) (recorded_world ["P"] ["P"])))
    "P" "E" "ev"
  = Some (UserCb 0).
Proof.
  apply (addListener_first_wins (recorded_world ["P"] ["P"]) "P" "E" "ev"
           (UserCb 0) (UserCb 1)).
  vm_compute. reflexivity.
Defined.

(** [removeListener_unsubscribes] for P, recorded after Q. *)
Lemma removeListener_unsubscribes_witness :
  let w' := snd (removeListener "P" "E" "ev" (recorded_world ["P"] ["Q"; "P"])) in
  stored_callback w' "P" "E" "ev" = None ∧
  ∃ arr, listener_set (recorded_world ["P"] ["Q"; "P"]) "E" "ev" = Some arr ∧
         listener_set w' "E" "ev" = Some (filter (λ n, n ≠ "P") arr) ∧
         "P" ∉ filter (λ n, n ≠ "P") arr.
Proof.
  apply (removeListener_unsubscribes (recorded_world ["P"] ["Q"; "P"]) "P" "E" "ev").
  vm_compute. reflexivity.
Defined.

(** [duplicate_free_kept] from a state with one set of two names. *)
Lemma duplicate_free_kept_witness :
  (∀ plugin, duplicate_free (snd (register plugin (recorded_world ["P"] ["Q"; "P"])))) ∧
  (∀ caller target method args,
     duplicate_free
       (snd (callMethod caller target method args (recorded_world ["P"] ["Q"; "P"])))) ∧
  (∀ name, duplicate_free (snd (activatePlugin name (recorded_world ["P"] ["Q"; "P"])))) ∧
  (∀ name, duplicate_free (snd (deactivatePlugin name (recorded_world ["P"] ["Q"; "P"])))) ∧
  (∀ listener emitter event cb,
     duplicate_free
       (snd (addListener listener emitter event cb (recorded_world ["P"] ["Q"; "P"])))) ∧
  (∀ listener emitter event cb,
     duplicate_free
       (snd (listenOnce listener emitter event cb (recorded_world ["P"] ["Q"; "P"])))) ∧
  (∀ listener emitter event,
     duplicate_free
       (snd (removeListener listener emitter event (recorded_world ["P"] ["Q"; "P"])))) ∧
  (∀ emitter event args,
     duplicate_free (snd (broadcast emitter event args (recorded_world ["P"] ["Q"; "P"])))).
Proof.
  apply (duplicate_free_kept (recorded_world ["P"] ["Q"; "P"])).
  exact recorded_world_duplicate_free.
Defined.

(** [listenOnce_delivers_once] for a plugin L that the global [name]
    designates. *)
Lemma listenOnce_delivers_once_witness :
  let subscribed := snd (listenOnce "L" "E" "ev" (UserCb 0) (listening_world (Some "L"))) in
  let first := broadcast "E" "ev" [VNum 1] subscribed in
  fst first = Ok tt ∧
  trace (snd first) = trace (listening_world (Some "L")) ++ [CCallback 0 [VNum 1]] ∧
  listener_set (snd first) "E" "ev" = Some [] ∧
  stored_callback (snd first) "L" "E" "ev" = None ∧
  broadcast "E" "ev" [VNum 1] (snd first) = (Ok tt, snd first).
Proof.
  apply (listenOnce_delivers_once (listening_world (Some "L")) {[ "L" := ∅ ]} ∅ ∅
           "L" "E" "ev" 0 [VNum 1] (ext (listening_world (Some "L")))).
  - reflexivity.
  - reflexivity.
  - vm_compute. reflexivity.
  - vm_compute. reflexivity.
  - reflexivity.
  - vm_compute. reflexivity.
  - reflexivity.
Defined.

(** [activateManager_needs_root_table] on an engine where the manager
    plugin is registered and its activation completes: the subscription of
    [__root__] is reached and fails. *)
Lemma activateManager_needs_root_table_witness :
  (fst (activatePlugin "manager" bootstrap_world) = Ok tt ∧
   fst (activateManager bootstrap_world) = Throw TypeError) ∧
  let out := activateManager bootstrap_world in
  fst out ≠ Ok tt ∧
  stored_callback (snd out) "__root__" "manager" "activated" = None ∧
  stored_callback (snd out) "__root__" "manager" "deactivated" = None.
Proof.
  split; [split; vm_compute; reflexivity|].
  apply (activateManager_needs_root_table bootstrap_world).
  vm_compute. reflexivity.
Defined.

(** [removeListener_noop] for L, which never subscribed to (E, ev). *)
Lemma removeListener_noop_witness :
  removeListener "L" "E" "ev" bystander_world = (Ok tt, bystander_world).
Proof.
  apply (removeListener_noop bystander_world {[ "[E] ev" := ["Q"] ]} {[ "L" := ∅ ]}
           ["Q"] ∅ "L" "E" "ev").
  - reflexivity.
  - vm_compute. reflexivity.
  - intros Hin. apply list_elem_of_singleton in Hin. discriminate.
  - reflexivity.
  - vm_compute. reflexivity.
  - vm_compute. reflexivity.
Defined.

(** * Properties of the webview connector *)
Module WebviewFacts.

Import Webview.

Section Connector.

Context {Msg Src Dev : Type}.
Variable isHandshake : Msg → bool.
Variable checkOrigin : string → Dev → bool.

Implicit Types (c : @Connector Msg Src Dev) (actions : list (@Action Msg Src)).

Abbreviation receive := (receive isHandshake checkOrigin).
Abbreviation send := (send isHandshake).
Abbreviation run := (run isHandshake checkOrigin).

(** One more action at the end of a run. *)
Lemma run_snoc actions (a : @Action Msg Src) c :
  run (actions ++ [a]) c = step isHandshake checkOrigin (run actions c) a.
Proof. unfold Webview.run. by rewrite foldl_app. Qed.

(** The mode and the options of a connector never change. *)
Lemma step_mode (a : @Action Msg Src) c :
  isVscode (step isHandshake checkOrigin c a) = isVscode c ∧
  options (step isHandshake checkOrigin c a) = options c.
Proof.
  destruct a as [event|message]; simpl.
  - unfold Webview.receive. repeat case_match; done.
  - unfold Webview.send. repeat case_match; done.
Qed.

Lemma run_mode actions c :
  isVscode (run actions c) = isVscode c ∧ options (run actions c) = options c.
Proof.
  induction actions as [|a actions IH] using rev_ind; [done|].
  rewrite run_snoc. destruct IH as [Hmode Hopts].
  destruct (step_mode a (run actions c)) as [-> ->]. done.
Qed.

(** X16. In a frame, as long as the connector has no origin, the only
    messages that leave are the handshakes, each posted to the current
    source for any origin; every other message is dropped. *)
Theorem sends_before_handshake (messages : list Msg) c :
  isVscode c = false →
  truthy (origin c) = false →
  let c' := run (map Send messages) c in
  posted c'
  = posted c ++
    map (λ m, {| post_to := source c; post_message := m; post_origin := Some "*" |})
        (filter (λ m, isHandshake m) messages) ∧
  source c' = source c ∧ origin c' = origin c ∧ delivered c' = delivered c.
Proof.
  intros Hmode Horigin. simpl.
  induction messages as [|m messages IH] using rev_ind.
  - simpl. by rewrite app_nil_r.
  - rewrite map_app. simpl. rewrite run_snoc. simpl.
    destruct IH as (Hposted & Hsource & Horig & Hdel).
    pose proof (run_mode (map Send messages) c) as [Hm _].
    unfold Webview.send. rewrite Hm, Hmode, Horig, Horigin. simpl.
    rewrite filter_app, map_app, filter_cons, filter_nil.
    destruct (isHandshake m) eqn:Hh; simpl.
    + rewrite Hposted, Hsource, <- app_assoc. done.
    + by rewrite app_nil_r.
Qed.

(** X17. After a handshake received in a frame from an origin that
    [checkOrigin] accepts, the connector answers the sender: the handshake
    is handed to the callback, and every message sent next is posted to the
    window the handshake came from, for the origin it came from. *)
Theorem handshake_then_send (event : @MessageEvent Msg Src) (src : Src)
    (hello message : Msg) (devMode : Dev) c :
  isVscode c = false → options c = Some devMode →
  event_source event = Some src → event_data event = Some hello →
  isHandshake hello = true →
  checkOrigin (event_origin event) devMode = true →
  event_origin event ≠ "" →
  let greeted := receive event c in
  fst greeted = Ok tt ∧
  delivered (snd greeted) = delivered c ++ [hello] ∧
  posted (send message (snd greeted))
  = posted c ++ [{| post_to := src; post_message := message;
                    post_origin := Some (event_origin event) |}].
Proof.
  intros Hmode Hopts Hsrc Hdata Hhello Hgood Hnonempty.
  unfold Webview.receive, Webview.send.
  rewrite Hsrc, Hdata, Hmode, Hopts, Hgood, Hhello. simpl.
  rewrite Hmode. rewrite bool_decide_eq_false_2 by done. done.
Qed.

(** X18. In a frame, whether a message reaches the callback depends on its
    own event only: the callback gets, in the order of arrival, the data of
    the events that have a source, data and an origin accepted by
    [checkOrigin], whether or not a handshake took place. *)
Theorem delivered_by_origin actions (devMode : Dev) c :
  isVscode c = false → options c = Some devMode →
  delivered (run actions c)
  = delivered c ++ omap (accepted checkOrigin devMode) actions.
Proof.
  intros Hmode Hopts.
  induction actions as [|a actions IH] using rev_ind.
  - simpl. by rewrite app_nil_r.
  - rewrite run_snoc, omap_app. simpl.
    pose proof (run_mode actions c) as [Hm Ho].
    destruct a as [event|message]; simpl.
    + unfold Webview.receive. rewrite Hm, Ho, Hmode, Hopts.
      destruct (event_source event); simpl; [|by rewrite app_nil_r].
      destruct (event_data event) as [data|]; simpl.
      * destruct (checkOrigin (event_origin event) devMode); simpl;
          [|by rewrite app_nil_r].
        destruct (isHandshake data); simpl; by rewrite IH, <- app_assoc.
      * destruct (checkOrigin (event_origin event) devMode); simpl;
          by rewrite app_nil_r.
    + unfold Webview.send. rewrite app_nil_r.
      repeat case_match; simpl; done.
Qed.

(** A post to any origin carries a handshake; any other post is for an
    origin that [checkOrigin] accepts. *)
Definition guarded (devMode : Dev) (p : @Post Msg Src) : Prop :=
  (post_origin p = Some "*" ∧ isHandshake (post_message p) = true) ∨
  (∃ o, post_origin p = Some o ∧ checkOrigin o devMode = true).

Definition trusting (devMode : Dev) c : Prop :=
  (∀ o, origin c = Some o → checkOrigin o devMode = true) ∧
  Forall (guarded devMode) (posted c).

Lemma step_trusting (devMode : Dev) (a : @Action Msg Src) c :
  isVscode c = false → options c = Some devMode →
  trusting devMode c → trusting devMode (step isHandshake checkOrigin c a).
Proof.
  intros Hmode Hopts [Horigin Hposted]. destruct a as [event|message]; simpl.
  - unfold Webview.receive. rewrite Hmode, Hopts.
    destruct (event_source event) as [src|]; [|done].
    destruct (event_data event) as [data|]; [|done].
    destruct (checkOrigin (event_origin event) devMode) eqn:Hgood; [|done].
    destruct (isHandshake data); simpl; [|done].
    split; [|done]. simpl. by intros o [= <-].
  - unfold Webview.send. rewrite Hmode.
    destruct (truthy (origin c)) eqn:Htruthy; simpl.
    + split; [done|]. simpl. apply Forall_app. split; [done|].
      apply Forall_singleton. right.
      destruct (origin c) as [o|]; [|done]. exists o. split; [done|].
      by apply Horigin.
    + destruct (isHandshake message) eqn:Hh; [|done].
      split; [done|]. simpl. apply Forall_app. split; [done|].
      apply Forall_singleton. by left.
Qed.

(** X19. A connector in a frame only ever adopts an origin that
    [checkOrigin] accepts, and only ever posts a message either for such an
    origin or, when it is a handshake, for any origin: this holds after
    every sequence of events and sends once it holds. *)
Theorem run_trusting actions (devMode : Dev) c :
  isVscode c = false → options c = Some devMode →
  trusting devMode c → trusting devMode (run actions c).
Proof.
  intros Hmode Hopts Htrust.
  induction actions as [|a actions IH] using rev_ind; [done|].
  rewrite run_snoc. pose proof (run_mode actions c) as [Hm Ho].
  apply step_trusting; [by rewrite Hm | by rewrite Ho | done].
Qed.

(** X20. With the VS Code API nothing is filtered and nothing is adopted:
    every message sent is posted to the API object without an origin, every
    event that has a source and data reaches the callback whatever its
    origin, and the source and the origin of the connector never change. *)
Theorem vscode_filters_nothing actions c :
  isVscode c = true →
  let c' := run actions c in
  source c' = source c ∧ origin c' = origin c ∧
  posted c'
  = posted c ++
    map (λ m, {| post_to := source c; post_message := m; post_origin := None |})
        (omap sent actions) ∧
  delivered c' = delivered c ++ omap readable actions.
Proof.
  intros Hmode. simpl.
  induction actions as [|a actions IH] using rev_ind.
  - simpl. by rewrite !app_nil_r.
  - rewrite run_snoc, !omap_app, map_app. simpl.
    destruct IH as (Hsource & Horigin & Hposted & Hdelivered).
    pose proof (run_mode actions c) as [Hm _].
    destruct a as [event|message]; simpl.
    + unfold Webview.receive. rewrite Hm, Hmode.
      destruct (event_source event); simpl; [|by rewrite !app_nil_r].
      destruct (event_data event) as [data|]; simpl;
        rewrite ?app_nil_r; [|done].
      by rewrite Hdelivered, <- app_assoc.
    + unfold Webview.send. rewrite Hm, Hmode. simpl.
      by rewrite Hposted, Hsource, <- app_assoc, app_nil_r.
Qed.

(** X21. The window and the origin of a connector change in one case
    only: in a frame, on an event with a source whose data is a handshake
    and whose origin [checkOrigin] accepts; they then become the source and
    the origin of that event. *)
Theorem receive_adopts_only_handshakes (event : @MessageEvent Msg Src) c :
  source (snd (receive event c)) ≠ source c ∨
  origin (snd (receive event c)) ≠ origin c →
  isVscode c = false ∧
  ∃ src hello devMode,
    event_source event = Some src ∧ event_data event = Some hello ∧
    options c = Some devMode ∧
    isHandshake hello = true ∧
    checkOrigin (event_origin event) devMode = true ∧
    source (snd (receive event c)) = src ∧
    origin (snd (receive event c)) = Some (event_origin event).
Proof.
  unfold Webview.receive.
  destruct (event_source event) as [src|]; [|by intros [|]].
  destruct (event_data event) as [hello|]; [|by intros [|]].
  destruct (isVscode c); [by intros [|]|].
  destruct (options c) as [devMode|]; [|by intros [|]].
  destruct (checkOrigin (event_origin event) devMode) eqn:Hgood; simpl;
    [|by intros [|]].
  destruct (isHandshake hello) eqn:Hh; simpl; [|by intros [|]].
  intros _. split; [done|]. by exists src, hello, devMode.
Qed.

End Connector.

End WebviewFacts.

(** ** The connector at a concrete page *)

(** The two connectors are what the constructor builds. *)
Example connectors_built :
  Webview.new_WebviewConnector Webview.Falsy 0 (Some false) = Ok frame ∧
  Webview.new_WebviewConnector (Webview.Acquire 7) 0 (Some false) = Ok panel ∧
  Webview.new_WebviewConnector (Src := nat) (Msg := string) Webview.Unbound 0 (Some false)
  = Throw ReferenceError.
Proof. repeat split. Qed.

(** [sends_before_handshake] for three messages sent in a fresh frame. *)
Lemma sends_before_handshake_witness :
  let c' := Webview.run is_hello remix_origin
              (map Webview.Send ["early"; "handshake"; "again"]) frame in
  Webview.posted c'
  = Webview.posted frame ++
    map (λ m, {| Webview.post_to := Webview.source frame;
                 Webview.post_message := m;
                 Webview.post_origin := Some "*" |})
        (filter (λ m, is_hello m) ["early"; "handshake"; "again"]) ∧
  Webview.source c' = Webview.source frame ∧
  Webview.origin c' = Webview.origin frame ∧
  Webview.delivered c' = Webview.delivered frame.
Proof.
  apply (WebviewFacts.sends_before_handshake is_hello remix_origin
           ["early"; "handshake"; "again"] frame); reflexivity.
Defined.

(** [handshake_then_send] for the handshake of window 1. *)
Lemma handshake_then_send_witness :
  let greeted := Webview.receive is_hello remix_origin hello_event frame in
  fst greeted = Ok tt ∧
  Webview.delivered (snd greeted) = Webview.delivered frame ++ ["handshake"] ∧
  Webview.posted (Webview.send is_hello "reply" (snd greeted))
  = Webview.posted frame ++
    [{| Webview.post_to := 1; Webview.post_message := "reply";
        Webview.post_origin := Some "https://remix.ethereum.org" |}].
Proof.
  apply (WebviewFacts.handshake_then_send is_hello remix_origin hello_event 1
           "handshake" "reply" false frame);
    try reflexivity.
  discriminate.
Defined.

(** [delivered_by_origin] for a session with a foreign handshake. *)
Lemma delivered_by_origin_witness :
  Webview.delivered (Webview.run is_hello remix_origin session frame)
  = Webview.delivered frame ++ omap (Webview.accepted remix_origin false) session.
Proof.
  apply (WebviewFacts.delivered_by_origin is_hello remix_origin session false frame);
    reflexivity.
Defined.

(** [run_trusting] for the same session. *)
Lemma run_trusting_witness :
  WebviewFacts.trusting is_hello remix_origin false
    (Webview.run is_hello remix_origin session frame).
Proof.
  apply (WebviewFacts.run_trusting is_hello remix_origin session false frame).
  - reflexivity.
  - reflexivity.
  - split; [intros o Ho; discriminate | constructor].
Defined.

(** [vscode_filters_nothing] for the same session in a VS Code panel. *)
Lemma vscode_filters_nothing_witness :
  let c' := Webview.run is_hello remix_origin session panel in
  Webview.source c' = Webview.source panel ∧
  Webview.origin c' = Webview.origin panel ∧
  Webview.posted c'
  = Webview.posted panel ++
    map (λ m, {| Webview.post_to := Webview.source panel;
                 Webview.post_message := m;
                 Webview.post_origin := None |})
        (omap Webview.sent session) ∧
  Webview.delivered c' = Webview.delivered panel ++ omap Webview.readable session.
Proof.
  apply (WebviewFacts.vscode_filters_nothing is_hello remix_origin session panel).
  reflexivity.
Defined.

(** [receive_adopts_only_handshakes] for the handshake of window 1. *)
Lemma receive_adopts_only_handshakes_witness :
  Webview.isVscode frame = false ∧
  ∃ src hello devMode,
    Webview.event_source hello_event = Some src ∧
    Webview.event_data hello_event = Some hello ∧
    Webview.options frame = Some devMode ∧
    is_hello hello = true ∧
    remix_origin (Webview.event_origin hello_event) devMode = true ∧
    Webview.source (snd (Webview.receive is_hello remix_origin hello_event frame)) = src ∧
    Webview.origin (snd (Webview.receive is_hello remix_origin hello_event frame))
    = Some (Webview.event_origin hello_event).
Proof.
  apply (WebviewFacts.receive_adopts_only_handshakes is_hello remix_origin
           hello_event frame).
  left. vm_compute. discriminate.
Defined.

(** What the session leaves in the frame: the early message was dropped,
    the handshake went out for any origin, the foreign handshake was
    ignored, and the reply went to window 1 at its origin. *)
Example session_in_frame :
  let c' := Webview.run is_hello remix_origin session frame in
  Webview.posted c'
  = [ {| Webview.post_to := 0; Webview.post_message := "handshake";
         Webview.post_origin := Some "*" |};
      {| Webview.post_to := 1; Webview.post_message := "reply";
         Webview.post_origin := Some "https://remix.ethereum.org" |} ] ∧
  Webview.delivered c' = ["request"; "handshake"] ∧
  Webview.source c' = 1.
Proof. repeat split; vm_compute; reflexivity. Qed.
